(** * knowledgebase: a shallow embedding of the retrieval pipeline

    The development follows the layout of the Python package:
    - [Py]: the fragment of Python's [str], slice, [dict] value and
      [sorted] semantics the package relies on;
    - [Processors]: [config], [DocumentChunk], the two [_split_text]
      routines and [DocumentProcessorFactory] (processors/);
    - [Storage]: [KnowledgeStore] over a keyed vector collection (storage/);
    - [QA]: [QASystem] (qa/qa_system.py);
    - [Doubles]: small concrete collaborators on which the model is run.

    Definitions come first; the properties of each module follow in the
    modules [PyFacts], [ChunkerProofs], [RegistryProofs], [StorageProofs]
    and [QAProofs].

    Python integers are [Z]; a [str] is a list of Unicode code points; a
    raised exception is the [Err] branch of [result]. *)

From Stdlib Require Import ZArith Lia Ascii.
From stdpp Require Import base tactics option list sorting gmap strings pretty.

Local Open Scope Z_scope.

(* ===================================================================== *)
(** ** Python values and strings *)
(* ===================================================================== *)

Module Py.

(** A character is a Unicode code point, a [str] a sequence of them. *)
Definition char : Type := N.
Definition str : Type := list N.

(** Literals: an ASCII literal read as a [str]. *)
Fixpoint str_of (s : string) : str :=
  match s with
  | EmptyString => []
  | String a s' => N_of_ascii a :: str_of s'
  end.

Arguments str_of : simpl never.

Definition NEWLINE : char := 10%N.
Definition BULLET : char := 8226%N.   (* U+2022 *)

(** [len(s)] as a Python int. *)
Definition len {A} (s : list A) : Z := Z.of_nat (length s).

(** [str(i)] for an int. *)
Definition str_of_int (i : Z) : str := str_of (pretty i).

(** One bound of [s[i:j]] brought into [0 .. len(s)]: a negative bound
    counts from the end, and both are clipped to the sequence. *)
Definition slice_index (n i : Z) : Z :=
  if i <? 0 then Z.max 0 (i + n) else Z.min i n.

(** [s[start:stop]] *)
Definition slice {A} (s : list A) (start stop : Z) : list A :=
  let a := slice_index (len s) start in
  let b := slice_index (len s) stop in
  take (Z.to_nat (b - a)) (drop (Z.to_nat a) s).

(** [s[:stop]] *)
Definition slice_to {A} (s : list A) (stop : Z) : list A := slice s 0 stop.

(** [s[start:]] *)
Definition slice_from {A} (s : list A) (start : Z) : list A :=
  slice s start (len s).

(** [sep.join(parts)] *)
Fixpoint join (sep : str) (parts : list str) : str :=
  match parts with
  | [] => []
  | [p] => p
  | p :: rest => p ++ sep ++ join sep rest
  end.

(** [s.split(c)] for a one-character separator: never empty, and
    [''.split(c) == ['']]. *)
Fixpoint split (c : char) (s : str) : list str :=
  match s with
  | [] => [[]]
  | x :: s' =>
      if N.eqb x c then [] :: split c s'
      else match split c s' with
           | [] => [[x]]
           | cur :: rest => (x :: cur) :: rest
           end
  end.

Fixpoint drop_while {A} (p : A -> bool) (s : list A) : list A :=
  match s with
  | [] => []
  | x :: s' => if p x then drop_while p s' else s
  end.

(** [str.isspace] on one character: the white-space code points of the
    interpreter (bidirectional class WS, B or S, or category Zs). *)
Definition isspace (c : char) : bool :=
  ((9 <=? c) && (c <=? 13) || (28 <=? c) && (c <=? 32)
   || (c =? 133) || (c =? 160) || (c =? 5760)
   || (8192 <=? c) && (c <=? 8202)
   || (c =? 8232) || (c =? 8233) || (c =? 8239) || (c =? 8287)
   || (c =? 12288))%N.

(** [s.lstrip(chars)], [s.lstrip()], [s.rstrip()], [s.strip()] *)
Definition lstrip_chars (chars : str) (s : str) : str :=
  drop_while (fun c => bool_decide (c ∈ chars)) s.
Definition lstrip (s : str) : str := drop_while isspace s.
Definition rstrip (s : str) : str := reverse (drop_while isspace (reverse s)).
Definition strip (s : str) : str := rstrip (lstrip s).

(** [s.startswith(p)] *)
Fixpoint startswith (s p : str) : bool :=
  match p, s with
  | [], _ => true
  | _ :: _, [] => false
  | a :: p', b :: s' => N.eqb a b && startswith s' p'
  end.

(** [needle in hay] on strings *)
Fixpoint contains (needle hay : str) : bool :=
  startswith hay needle
  || match hay with
     | [] => false
     | _ :: hay' => contains needle hay'
     end.

(** [s.rfind(c)] for one character: the last index of [c], or [-1]. *)
Fixpoint rfind_from (c : char) (s : str) (i : Z) (found : Z) : Z :=
  match s with
  | [] => found
  | x :: s' => rfind_from c s' (i + 1) (if N.eqb x c then i else found)
  end.
Definition rfind (c : char) (s : str) : Z := rfind_from c s 0 (-1).

(** The values a metadata mapping holds ([Dict[str, Any]]): [None], ints
    (with [True] and [False] as the ints 1 and 0, [bool] being a subclass of
    [int] that compares, hashes and sorts as they do), strings, and lists of
    strings for the values that are not scalars. Floats do not occur. *)
Inductive pyval :=
  | VNone
  | VInt (i : Z)
  | VStr (s : str)
  | VList (items : list str).

Definition is_scalar (v : pyval) : bool :=
  match v with
  | VInt _ | VStr _ => true
  | VNone | VList _ => false
  end.

(** A list cannot be a member of a [set]. *)
Definition hashable (v : pyval) : bool :=
  match v with
  | VList _ => false
  | _ => true
  end.

(** The exceptions that are raised, with their messages. *)
Inductive Exception :=
  | FileNotFoundError (msg : str)
  | ValueError (msg : str)
  | RuntimeError (msg : str)
  | TypeError (msg : str).

Inductive result (A : Type) :=
  | Ok (a : A)
  | Err (e : Exception).
Arguments Ok {A} a.
Arguments Err {A} e.

Definition is_Ok {A} (r : result A) : Prop :=
  match r with Ok _ => True | Err _ => False end.

(** Lexicographic [<=] on sequences, as Python compares [str] (by code
    point) and lists. *)
Fixpoint lex_leb {A} (leb : A -> A -> bool) (a b : list A) : bool :=
  match a, b with
  | [], _ => true
  | _ :: _, [] => false
  | x :: a', y :: b' =>
      if leb x y then (if leb y x then lex_leb leb a' b' else true)
      else false
  end.

Definition str_leb : str -> str -> bool := lex_leb N.leb.

Definition as_str (v : pyval) : option str :=
  match v with VStr s => Some s | _ => None end.
Definition as_int (v : pyval) : option Z :=
  match v with VInt i => Some i | _ => None end.
Definition as_list (v : pyval) : option (list str) :=
  match v with VList l => Some l | _ => None end.

(** [sorted(l)]: a list of at most one element is returned as it is (no
    comparison is made); strings sort among strings, ints among ints, lists
    among lists; any other mixture makes a comparison raise [TypeError]. *)
Definition sorted (l : list pyval) : result (list pyval) :=
  match l with
  | [] | [_] => Ok l
  | _ =>
      match mapM as_str l, mapM as_int l, mapM as_list l with
      | Some ss, _, _ => Ok (VStr <$> merge_sort (fun a b => str_leb a b) ss)
      | _, Some zs, _ => Ok (VInt <$> merge_sort Z.le zs)
      | _, _, Some ls =>
          Ok (VList <$> merge_sort (fun a b => lex_leb str_leb a b) ls)
      | _, _, _ => Err (TypeError (str_of "'<' not supported"))
      end
  end.

(** Values of one kind, which [sorted] can compare with one another. *)
Definition comparable (P : pyval -> Prop) : Prop :=
  (forall v, P v -> is_Some (as_str v))
  \/ (forall v, P v -> is_Some (as_int v))
  \/ (forall v, P v -> is_Some (as_list v)).

End Py.

Import Py.

(** [pyval] is countable, so that it can key and populate finite sets. *)
Global Instance pyval_eq_dec : EqDecision pyval.
Proof. solve_decision. Defined.

Global Instance pyval_countable : Countable pyval.
Proof.
  refine (inj_countable'
    (fun v => match v with
              | VNone => inl ()
              | VInt i => inr (inl i)
              | VStr s => inr (inr (inl s))
              | VList l => inr (inr (inr l))
              end)
    (fun x => match x with
              | inl _ => VNone
              | inr (inl i) => VInt i
              | inr (inr (inl s)) => VStr s
              | inr (inr (inr l)) => VList l
              end) _).
  by intros [].
Defined.

Global Instance Exception_eq_dec : EqDecision Exception.
Proof. solve_decision. Defined.

(* ===================================================================== *)
(** ** processors/ *)
(* ===================================================================== *)

Module Processors.

(** config.py: the two processing constants, held in a record so that the
    splitters can be studied at every setting. *)
Record Config := { CHUNK_SIZE : Z; CHUNK_OVERLAP : Z }.

Definition config : Config := {| CHUNK_SIZE := 1000; CHUNK_OVERLAP := 200 |}.

(** base.py: [DocumentChunk]; the two optional fields default to [None]. *)
Record DocumentChunk := {
  content : str;
  metadata : gmap str pyval;
  page_number : option Z;
  chunk_index : option Z;
}.

(** The [while start < len(text)] loop, written the same in both
    processors:
<<
        while start < len(text):
            end = start + chunk_size
            chunk = text[start:end]
            chunks.append(chunk)
            start = end - chunk_overlap
>>
    [fuel] bounds the number of iterations; [None] means the bound was
    reached with the loop condition still true. *)
Fixpoint split_loop (fuel : nat) (text : str) (chunk_size chunk_overlap : Z)
    (start : Z) (chunks : list str) : option (list str) :=
  if start <? len text then
    match fuel with
    | O => None
    | S fuel' =>
        let end_ := start + chunk_size in
        let chunk := slice text start end_ in
        split_loop fuel' text chunk_size chunk_overlap
          (end_ - chunk_overlap) (chunks ++ [chunk])
    end
  else Some chunks.

(** A run that gives no result whatever the bound on its iterations: the
    loop does not end. *)
Definition never_returns {A} (run : nat -> option A) : Prop :=
  forall fuel, run fuel = None.

(** A path, as [pathlib] holds it: its components. *)
Record Path := { parts : list str }.

(** [path.name], [str(path)] and [path.suffix] (the last dot of the name
    opens the suffix unless it is the first or the last character). *)
Definition name (p : Path) : str := List.last (parts p) [].
Definition path_str (p : Path) : str := join (str_of "/") (parts p).
Definition suffix (p : Path) : str :=
  let name := name p in
  let i := rfind 46%N name in
  if (0 <? i) && (i <? len name - 1) then slice_from name i else [].

(** base.py: the interface of a document processor. *)
Record DocumentProcessor := {
  can_process : Path -> bool;
  process : Path -> result (list DocumentChunk);
}.

Module DOCXProcessor.

(** docx_processor.py, [DOCXProcessor.can_process]; [lower] is
    [str.lower]. *)
Definition can_process (lower : str -> str) (file_path : Path) : bool :=
  bool_decide (lower (suffix file_path) ∈ [str_of ".docx"; str_of ".doc"]).

(** docx_processor.py, [DOCXProcessor._split_text] *)
Definition _split_text (fuel : nat) (cfg : Config) (text : str)
    : option (list str) :=
  let chunk_size := CHUNK_SIZE cfg in
  let chunk_overlap := CHUNK_OVERLAP cfg in
  let chunk_overlap :=
    if chunk_overlap >=? chunk_size then chunk_size `div` 2
    else chunk_overlap in
  if len text <=? chunk_size then Some [text]
  else split_loop fuel text chunk_size chunk_overlap 0 [].

End DOCXProcessor.

Module PDFProcessor.

(** pdf_processor.py, [PDFProcessor.can_process] *)
Definition can_process (lower : str -> str) (file_path : Path) : bool :=
  bool_decide (lower (suffix file_path) = str_of ".pdf").

(** pdf_processor.py, [PDFProcessor._split_text] *)
Definition _split_text (fuel : nat) (cfg : Config) (text : str)
    : option (list str) :=
  let chunk_size := CHUNK_SIZE cfg in
  let chunk_overlap := CHUNK_OVERLAP cfg in
  if len text <=? chunk_size then Some [text]
  else split_loop fuel text chunk_size chunk_overlap 0 [].

End PDFProcessor.

(** The chunks with the overlap removed, as the coverage property reads:
    the first chunk whole, every later chunk without its first [overlap]
    characters. *)
Definition remove_overlap (overlap : Z) (chunks : list str) : str :=
  match chunks with
  | [] => []
  | c :: rest => c ++ concat (map (drop (Z.to_nat overlap)) rest)
  end.

Module DocumentProcessorFactory.

(** processors/__init__.py, [get_processor]: the first registered
    processor that accepts the path. *)
Fixpoint get_processor (processors : list DocumentProcessor)
    (file_path : Path) : option DocumentProcessor :=
  match processors with
  | [] => None
  | processor :: rest =>
      if can_process processor file_path then Some processor
      else get_processor rest file_path
  end.

(** processors/__init__.py, [process_document]; [exists_] is
    [Path.exists] on the file system of the call. *)
Definition process_document (exists_ : Path -> bool)
    (processors : list DocumentProcessor) (file_path : Path)
    : result (list DocumentChunk) :=
  if negb (exists_ file_path) then
    Err (FileNotFoundError (str_of "File not found: " ++ path_str file_path))
  else
    match get_processor processors file_path with
    | None =>
        Err (ValueError
               (str_of "No processor found for file type: "
                ++ suffix file_path))
    | Some processor => process processor file_path
    end.

End DocumentProcessorFactory.

End Processors.

(* ===================================================================== *)
(** ** storage/knowledge_store.py *)
(* ===================================================================== *)

Module Storage.

(** One record of the vector index: the document text, its embedding and
    its metadata, stored under an identifier. *)
Record StoredRecord (Embedding : Type) := {
  r_document : str;
  r_embedding : Embedding;
  r_metadata : gmap str pyval;
}.
Arguments r_document {Embedding} _.
Arguments r_embedding {Embedding} _.
Arguments r_metadata {Embedding} _.

(** The store: its collection, keyed by identifier, and the number of
    identifiers drawn from [uuid.uuid4] so far. *)
Record KnowledgeStore (Embedding : Type) := {
  collection : gmap str (StoredRecord Embedding);
  drawn : nat;
}.
Arguments collection {Embedding} _.
Arguments drawn {Embedding} _.

(** What [search] returns for one match. *)
Record SearchResult (Distance : Type) := {
  sr_content : str;
  sr_metadata : gmap str pyval;
  sr_distance : option Distance;
}.
Arguments sr_content {Distance} _.
Arguments sr_metadata {Distance} _.
Arguments sr_distance {Distance} _.

(** A [where] filter holds when the metadata has each of its keys with an
    equal value. *)
Definition matches (where_ md : gmap str pyval) : Prop :=
  map_Forall (fun k v => md !! k = Some v) where_.

Global Instance matches_dec where_ md : Decision (matches where_ md).
Proof. unfold matches. apply _. Defined.

Definition FILENAME : str := str_of "filename".

(** A record belongs to the document [filename] when its metadata holds
    that string under [filename]. *)
Definition of_document {Embedding} (filename : str)
    (record : StoredRecord Embedding) : Prop :=
  r_metadata record !! FILENAME = Some (VStr filename).

(** The values some stored record holds under [filename]. *)
Definition stored_filename {Embedding} (st : KnowledgeStore Embedding)
    (v : pyval) : Prop :=
  exists id record,
    collection st !! id = Some record /\ r_metadata record !! FILENAME = Some v.

Global Instance of_document_dec {Embedding} filename
    (record : StoredRecord Embedding) : Decision (of_document filename record).
Proof. unfold of_document. apply _. Defined.

Section Store.

Context {Embedding Distance : Type}.

(** The embedding provider. *)
Variable embed_documents : list str -> list Embedding.
Variable embed_query : str -> Embedding.

(** [uuid.uuid4]: the n-th identifier drawn, as a string. *)
Variable uuid4 : nat -> str.

(** The vector index's own check of a metadata mapping on [add], and its
    ranked similarity query. *)
Variable validate_metadata : gmap str pyval -> bool.
Variable index_query :
  gmap str (StoredRecord Embedding) -> Embedding -> Z ->
  option (gmap str pyval) -> list (str * gmap str pyval * Distance).

Local Abbreviation Collection := (gmap str (StoredRecord Embedding)).
Local Abbreviation Store := (KnowledgeStore Embedding).

(** *** The collection of the vector index *)

(** [collection.get(where=...)]: the records that match, with their
    identifiers. *)
Definition collection_get (where_ : option (gmap str pyval))
    (coll : Collection) : list (str * StoredRecord Embedding) :=
  match where_ with
  | None => map_to_list coll
  | Some w => map_to_list (filter (fun kv => matches w (r_metadata kv.2)) coll)
  end.

(** [collection.delete(ids=...)] *)
Definition collection_delete (ids : list str) (coll : Collection)
    : Collection :=
  foldr delete coll ids.

(** [collection.count()] *)
Definition collection_count (coll : Collection) : Z := Z.of_nat (size coll).

Fixpoint zip_records (ids : list str) (documents : list str)
    (embeddings : list Embedding) (metadatas : list (gmap str pyval))
    : list (str * StoredRecord Embedding) :=
  match ids, documents, embeddings, metadatas with
  | i :: ids', d :: documents', e :: embeddings', m :: metadatas' =>
      (i, {| r_document := d; r_embedding := e; r_metadata := m |})
      :: zip_records ids' documents' embeddings' metadatas'
  | _, _, _, _ => []
  end.

(** [collection.add(ids, documents, embeddings, metadatas)]: the four
    lists must agree in length, the identifiers must differ from one
    another and every metadata mapping must pass the index's check; a
    record whose identifier is already present is left as it was. *)
Definition collection_add (ids : list str) (documents : list str)
    (embeddings : list Embedding) (metadatas : list (gmap str pyval))
    (coll : Collection) : result Collection :=
  if negb (bool_decide (length documents = length ids
                        /\ length embeddings = length ids
                        /\ length metadatas = length ids)) then
    Err (ValueError (str_of "Unequal lengths"))
  else if negb (bool_decide (NoDup ids)) then
    Err (ValueError (str_of "Expected IDs to be unique"))
  else if negb (forallb validate_metadata metadatas) then
    Err (ValueError (str_of "Expected metadata value to be a str, int, float or bool"))
  else
    Ok (coll ∪ list_to_map (zip_records ids documents embeddings metadatas)).

(** *** [KnowledgeStore] *)

(** The metadata prepared for one chunk in [add_document_chunks]:
<<
          metadata = {
              "filename": chunk.metadata.get("filename", ""),
              "file_path": chunk.metadata.get("file_path", ""),
              "file_extension": chunk.metadata.get("file_extension", ""),
              "chunk_type": chunk.metadata.get("chunk_type", "text"),
          }
          if chunk.page_number:
              metadata["page_number"] = chunk.page_number
          if chunk.chunk_index is not None:
              metadata["chunk_index"] = chunk.chunk_index
>> *)
Definition prepare_metadata (chunk : Processors.DocumentChunk)
    : gmap str pyval :=
  let get key default_ :=
    default default_ (Processors.metadata chunk !! str_of key) in
  let metadata : gmap str pyval :=
    <[str_of "chunk_type" := get "chunk_type" (VStr (str_of "text"))]>
    (<[str_of "file_extension" := get "file_extension" (VStr [])]>
    (<[str_of "file_path" := get "file_path" (VStr [])]>
    (<[FILENAME := get "filename" (VStr [])]> ∅))) in
  let metadata :=
    match Processors.page_number chunk with
    | Some p =>
        if bool_decide (p ≠ 0) then <[str_of "page_number" := VInt p]> metadata
        else metadata
    | None => metadata
    end in
  let metadata :=
    match Processors.chunk_index chunk with
    | Some i => <[str_of "chunk_index" := VInt i]> metadata
    | None => metadata
    end in
  metadata.

(** What is stored under each key for a chunk, read off the code above:
    the three file keys and [chunk_type] come from the chunk's metadata
    (with ['']  and ['text'] when absent), [page_number] and [chunk_index]
    from the chunk's own fields, and nothing else is stored. *)
Definition stored_value (chunk : Processors.DocumentChunk) (key : str)
    : option pyval :=
  if decide (key ∈ [FILENAME; str_of "file_path"; str_of "file_extension"])
  then Some (default (VStr []) (Processors.metadata chunk !! key))
  else if decide (key = str_of "chunk_type")
  then Some (default (VStr (str_of "text")) (Processors.metadata chunk !! key))
  else if decide (key = str_of "page_number")
  then match Processors.page_number chunk with
       | Some p => if decide (p = 0) then None else Some (VInt p)
       | None => None
       end
  else if decide (key = str_of "chunk_index")
  then VInt <$> Processors.chunk_index chunk
  else None.

(** The [for chunk in chunks] loop of [add_document_chunks]: the three
    lists grow by one entry per chunk, and one identifier is drawn. *)
Fixpoint prepare (chunks : list Processors.DocumentChunk) (n : nat)
    (ids documents : list str) (metadatas : list (gmap str pyval))
    : list str * list str * list (gmap str pyval) * nat :=
  match chunks with
  | [] => (ids, documents, metadatas, n)
  | chunk :: rest =>
      let chunk_id := uuid4 n in
      prepare rest (S n) (ids ++ [chunk_id])
        (documents ++ [Processors.content chunk])
        (metadatas ++ [prepare_metadata chunk])
  end.

(** [KnowledgeStore.add_document_chunks] *)
Definition add_document_chunks (st : Store)
    (chunks : list Processors.DocumentChunk) : result (list str * Store) :=
  match chunks with
  | [] => Ok ([], st)
  | _ =>
      let '(ids, documents, metadatas, n) := prepare chunks (drawn st) [] [] [] in
      let embeddings_list := embed_documents documents in
      match collection_add ids documents embeddings_list metadatas
              (collection st) with
      | Err e => Err e
      | Ok coll => Ok (ids, {| collection := coll; drawn := n |})
      end
  end.

(** [KnowledgeStore.search] *)
Definition search (st : Store) (query : str) (n_results : Z)
    (filter_metadata : option (gmap str pyval))
    : list (SearchResult Distance) :=
  let query_embedding := embed_query query in
  let results := index_query (collection st) query_embedding n_results
                   filter_metadata in
  (fun m => {| sr_content := m.1.1; sr_metadata := m.1.2;
               sr_distance := Some m.2 |}) <$> results.

(** The loop of [get_all_documents] over the metadata mappings: a value
    that cannot be hashed makes [filenames.add] raise. *)
Fixpoint collect_filenames (metadatas : list (gmap str pyval))
    (filenames : gset pyval) : result (gset pyval) :=
  match metadatas with
  | [] => Ok filenames
  | metadata :: rest =>
      match metadata !! FILENAME with
      | Some v =>
          if hashable v then collect_filenames rest (filenames ∪ {[v]})
          else Err (TypeError (str_of "unhashable type: 'list'"))
      | None => collect_filenames rest filenames
      end
  end.

(** [KnowledgeStore.get_all_documents] *)
Definition get_all_documents (st : Store) : result (list pyval) :=
  let results := collection_get None (collection st) in
  let metadatas := (fun kv => r_metadata kv.2) <$> results in
  match metadatas with
  | [] => Ok []
  | _ =>
      match collect_filenames metadatas ∅ with
      | Err e => Err e
      | Ok filenames => sorted (elements filenames)
      end
  end.

(** [KnowledgeStore.delete_document] *)
Definition delete_document (st : Store) (filename : str) : Z * Store :=
  let results :=
    collection_get (Some {[FILENAME := VStr filename]}) (collection st) in
  let ids := results.*1 in
  match ids with
  | [] => (0, st)
  | _ =>
      (len ids,
       {| collection := collection_delete ids (collection st);
          drawn := drawn st |})
  end.

(** [KnowledgeStore.get_stats]: [(total_chunks, documents)], with
    [total_documents] the length of [documents]. *)
Definition get_stats (st : Store) : result (Z * Z * list pyval) :=
  let count := collection_count (collection st) in
  match get_all_documents st with
  | Err e => Err e
  | Ok documents => Ok (count, len documents, documents)
  end.

End Store.

End Storage.

(* ===================================================================== *)
(** ** qa/qa_system.py *)
(* ===================================================================== *)

Module QA.

Import Storage.

(** One entry of [sources]: the values under the keys [filename],
    [page_number] and [chunk_index], read from the metadata. *)
Record SourceInfo := {
  source_filename : pyval;
  source_page_number : pyval;
  source_chunk_index : pyval;
}.

(** The dictionary [answer_question] returns. *)
Record Answer := {
  answer : str;
  sources : list SourceInfo;
  context_used : list str;
}.

(** Calls to the completion capability are effects: a computation threads
    the log of the prompts sent so far. *)
Definition LLM (A : Type) : Type := list str -> A * list str.

Definition ret {A} (a : A) : LLM A := fun log => (a, log).

Definition bind {A B} (c : LLM A) (k : A -> LLM B) : LLM B :=
  fun log => let '(a, log') := c log in k a log'.

Notation "x <- c ;; k" := (bind c (fun x => k))
  (at level 100, c at next level, right associativity).

(** The result and the prompts sent by a computation started on an empty
    log. *)
Definition run {A} (c : LLM A) : A * list str := c [].

Definition NO_INFORMATION : str :=
  str_of "I don't have any relevant information in the knowledge base to answer this question.".

Definition TEST_ID : str := str_of "Test ID".
Definition TEST_CASE : str := str_of "Test Case".
Definition FULL_TEXT : str := str_of "full_text".

(** The characters [lstrip] removes from an insight line:
    ["0123456789.-•) "]. *)
Definition MARKER_CHARS : str :=
  str_of "0123456789.-" ++ [BULLET] ++ str_of ") ".

(** [self.system_prompt.format(context=context, question=question)] *)
Definition system_prompt (context question : str) : str :=
  str_of "You are a helpful assistant that answers questions based on the provided context from process documents.

The documents may contain:
- Functional specifications
- Technical specifications
- Working instructions
- Hebrew text and English text
- References to images and diagrams

Guidelines:
1. Answer based ONLY on the provided context
2. If the context doesn't contain the answer, say so clearly
3. Support both Hebrew and English questions
4. Provide detailed, accurate answers
5. Reference specific documents or sections when relevant
6. If asked about images or diagrams, mention that they exist in the documents

Context:
" ++ context ++ str_of "

Question: " ++ question ++ str_of "

Answer:".

(** The prompt of [extract_insights]. *)
Definition insights_prompt (context : str) : str :=
  str_of "Based on the following excerpts from process documents, extract the key insights, important points, and critical information.

Provide a numbered list of distinct insights.

Excerpts:
" ++ context ++ str_of "

Key Insights:".

(** The prompt of [generate_tests]. *)
Definition tests_prompt (test_type context : str) : str :=
  str_of "Based on the following documentation, generate " ++ test_type
  ++ str_of " test cases.

For each test case, provide:
1. Test ID
2. Test Description
3. Prerequisites
4. Test Steps
5. Expected Results

Format each test case clearly and number them.

Documentation:
" ++ context ++ str_of "

Test Cases:".

(** [label + " " + str(idx + 1) + ...] of the numbered context blocks. *)
Definition numbered (opening : str) (idx : nat) (closing : str)
    (content : str) : str :=
  opening ++ str_of_int (Z.of_nat idx + 1) ++ closing ++ content.

(** [if document_name:] on an optional string. *)
Definition truthy (document_name : option str) : bool :=
  match document_name with
  | Some (_ :: _) => true
  | _ => false
  end.

(** One entry of [context_used]:
    [r["content"][:200] + "..." if len(r["content"]) > 200 else r["content"]] *)
Definition excerpt (content : str) : str :=
  if len content >? 200 then slice_to content 200 ++ str_of "..."
  else content.

(** The body of the parsing loop of [extract_insights], for one line. *)
Definition insight_step (isdigit : char -> bool) (insights : list str)
    (line : str) : list str :=
  let line := strip line in
  let marked :=
    match line with
    | [] => false
    | c :: _ =>
        isdigit c || startswith line (str_of "-") || startswith line [BULLET]
    end in
  if marked then
    let insight := strip (lstrip_chars MARKER_CHARS line) in
    match insight with
    | [] => insights
    | _ => insights ++ [insight]
    end
  else insights.

(** Lines 172-182 of [extract_insights]: the response parsed into
    insights. *)
Definition parse_insights (isdigit : char -> bool) (insights_text : str)
    (max_insights : Z) : list str :=
  let insights :=
    foldl (insight_step isdigit) [] (split NEWLINE insights_text) in
  slice_to insights max_insights.

(** The body of the parsing loop of [generate_tests], for one line, on the
    pair [(test_cases, current_test)]; an empty dictionary is false. *)
Definition test_step (state : list (gmap str str) * gmap str str)
    (line : str) : list (gmap str str) * gmap str str :=
  let '(test_cases, current_test) := state in
  let line := strip line in
  if contains TEST_ID line || contains TEST_CASE line then
    let test_cases :=
      if bool_decide (current_test ≠ ∅) then test_cases ++ [current_test]
      else test_cases in
    (test_cases, {[FULL_TEXT := line]})
  else if bool_decide (current_test ≠ ∅) then
    (test_cases,
     <[FULL_TEXT := default [] (current_test !! FULL_TEXT)
                    ++ [NEWLINE] ++ line]> current_test)
  else (test_cases, current_test).

(** Lines 244-261 of [generate_tests]: the loop over the lines and the
    closing [if current_test: test_cases.append(current_test)]. *)
Definition parse_test_lines (lines : list str) : list (gmap str str) :=
  let '(test_cases, current_test) := foldl test_step ([], ∅) lines in
  if bool_decide (current_test ≠ ∅) then test_cases ++ [current_test]
  else test_cases.

(** The response parsed into test records. *)
Definition parse_test_cases (test_cases_text : str) : list (gmap str str) :=
  parse_test_lines (split NEWLINE test_cases_text).

(** *** The parsers described line by line *)

(** A line begins with a digit, ['-'] or ['•']. *)
Definition marked (isdigit : char -> bool) (line : str) : bool :=
  match line with
  | [] => false
  | c :: _ => isdigit c || (c =? 45)%N || (c =? BULLET)%N
  end.

(** The insight a line gives, if any: the line is trimmed; when it then
    begins with a digit, ['-'] or ['•'], its leading marker characters are
    removed and the rest is trimmed; an empty rest gives nothing. *)
Definition insight_of (isdigit : char -> bool) (line : str) : option str :=
  let trimmed := strip line in
  if marked isdigit trimmed then
    match strip (lstrip_chars MARKER_CHARS trimmed) with
    | [] => None
    | insight => Some insight
    end
  else None.

(** The insights as the sentence on [extractInsights] reads: the lines
    that begin with a digit, ['-'] or ['•'], in order, each with its leading
    marker characters removed, and at most [max_insights] of them. *)
Definition insights_as_stated (isdigit : char -> bool) (insights_text : str)
    (max_insights : Z) : list str :=
  take (Z.to_nat max_insights)
    (lstrip_chars MARKER_CHARS
       <$> filter (fun line => marked isdigit line = true)
             (split NEWLINE insights_text)).

(** The first line of a text, and whether a line holds one of the two
    markers of a test case. *)
Definition first_line (text : str) : str :=
  default [] (head (split NEWLINE text)).

Definition has_marker (line : str) : bool :=
  contains TEST_ID line || contains TEST_CASE line.

(** A record whose text opens with a marker line. *)
Definition opens_with_marker (record : gmap str str) : Prop :=
  exists full,
    record !! FULL_TEXT = Some full /\ has_marker (first_line full) = true.

(** The state of the loop of [generate_tests]: the finished records open
    with a marker line, and the current one is empty or does so too, with
    no other key. *)
Definition test_state_ok (state : list (gmap str str) * gmap str str) : Prop :=
  Forall opens_with_marker state.1
  /\ (state.2 = ∅
      \/ exists full,
           state.2 = {[FULL_TEXT := full]}
           /\ has_marker (first_line full) = true).

Section QASystem.

Context {Distance : Type}.

(** [self.knowledge_store.search] and [self.llm.invoke(prompt).content]. *)
Variable search :
  str -> Z -> option (gmap str pyval) -> list (SearchResult Distance).
Variable llm : str -> str.

(** [str.isdigit] on one character, from the interpreter's Unicode
    tables. *)
Variable isdigit : char -> bool.

Definition invoke (prompt : str) : LLM str :=
  fun log => (llm prompt, log ++ [prompt]).

(** The [for idx, result in enumerate(search_results)] loop of
    [answer_question], on the pair [(context_parts, sources)]. *)
Definition context_step (state : list str * list SourceInfo)
    (item : nat * SearchResult Distance) : list str * list SourceInfo :=
  let '(context_parts, sources) := state in
  let '(idx, result) := item in
  let content := sr_content result in
  let metadata := sr_metadata result in
  let source_info :=
    {| source_filename :=
         default (VStr (str_of "Unknown")) (metadata !! FILENAME);
       source_page_number := default VNone (metadata !! str_of "page_number");
       source_chunk_index := default VNone (metadata !! str_of "chunk_index") |} in
  (context_parts ++ [numbered (str_of "[Document ") idx (str_of "]: ") content],
   sources ++ [source_info]).

(** [QASystem.answer_question] *)
Definition answer_question (question : str) (n_results : Z) : LLM Answer :=
  let search_results := search question n_results None in
  match search_results with
  | [] =>
      ret {| answer := NO_INFORMATION; sources := []; context_used := [] |}
  | _ =>
      let '(context_parts, sources) :=
        foldl context_step ([], []) (imap pair search_results) in
      let context := join (str_of "

") context_parts in
      let prompt := system_prompt context question in
      answer <- invoke prompt ;;
      ret {| answer := answer;
             sources := sources;
             context_used := (fun r => excerpt (sr_content r)) <$> search_results |}
  end.

(** [QASystem.extract_insights] *)
Definition extract_insights (document_name : option str) (max_insights : Z)
    : LLM (list str) :=
  let query := str_of "key points important information insights" in
  let search_results :=
    if truthy document_name then
      search query max_insights
        (Some {[FILENAME := VStr (default [] document_name)]})
    else search query max_insights None in
  match search_results with
  | [] => ret []
  | _ =>
      let context :=
        join (str_of "

")
          (imap (fun idx result =>
                   numbered (str_of "Excerpt ") idx (str_of ": ")
                     (sr_content result))
                search_results) in
      let prompt := insights_prompt context in
      insights_text <- invoke prompt ;;
      ret (parse_insights isdigit insights_text max_insights)
  end.

(** [QASystem.generate_tests] *)
Definition generate_tests (document_name : option str) (test_type : str)
    : LLM (list (gmap str str)) :=
  let search_query :=
    test_type ++ str_of " requirements specifications test cases" in
  let search_results :=
    if truthy document_name then
      search search_query 5
        (Some {[FILENAME := VStr (default [] document_name)]})
    else search search_query 5 None in
  match search_results with
  | [] => ret []
  | _ =>
      let context :=
        join (str_of "

")
          (imap (fun idx result =>
                   numbered (str_of "Section ") idx (str_of ": ")
                     (sr_content result))
                search_results) in
      let prompt := tests_prompt test_type context in
      test_cases_text <- invoke prompt ;;
      ret (parse_test_cases test_cases_text)
  end.

End QASystem.

End QA.

(* ===================================================================== *)
(** ** Concrete collaborators *)
(* ===================================================================== *)

(** Small stand-ins for the collaborators outside the package
    (interpreter tables, identifier source, embedding provider, vector
    index policy, retrieval and completion), on which the model runs. *)
Module Doubles.

Import Processors Storage QA.

(** [str.isdigit] restricted to ASCII, where it holds of ['0'..'9'] only. *)
Definition isdigit_ascii (c : char) : bool := ((48 <=? c) && (c <=? 57))%N.

(** [str.lower] restricted to ASCII letters. *)
Definition lower_ascii (s : str) : str :=
  (fun c => if ((65 <=? c) && (c <=? 90))%N then (c + 32)%N else c) <$> s.

(** Identifiers [id-0], [id-1], ... *)
Definition uuid_seq (n : nat) : str := str_of "id-" ++ str_of_int (Z.of_nat n).

(** An embedding provider with one-point embeddings. *)
Definition embed_unit (documents : list str) : list () := (fun _ => ()) <$> documents.

(** An index that accepts scalar metadata values only. *)
Definition scalars_only (metadata : gmap str pyval) : bool :=
  bool_decide (map_Forall (fun _ v => is_scalar v = true) metadata).

(** A store whose search returns a fixed sequence, and a completion
    capability with a fixed response. *)
Definition search_fixed (results : list (SearchResult ()))
    : str -> Z -> option (gmap str pyval) -> list (SearchResult ()) :=
  fun _ _ _ => results.
Definition llm_fixed (response : str) : str -> str := fun _ => response.

Definition hit (content : str) (file : string) : SearchResult () :=
  {| sr_content := content;
     sr_metadata := {[FILENAME := VStr (str_of file)]};
     sr_distance := Some () |}.

Definition chunk_of (text : str) (md : gmap str pyval) (page idx : option Z)
    : DocumentChunk :=
  {| content := text; metadata := md; page_number := page; chunk_index := idx |}.

(** The two registered processors, each returning one chunk that names
    it. *)
Definition pdf_processor : DocumentProcessor :=
  {| can_process := PDFProcessor.can_process lower_ascii;
     process := fun p =>
       Ok [chunk_of (str_of "pdf") {[FILENAME := VStr (name p)]} (Some 1) (Some 0)] |}.
Definition docx_processor : DocumentProcessor :=
  {| can_process := DOCXProcessor.can_process lower_ascii;
     process := fun p =>
       Ok [chunk_of (str_of "docx") {[FILENAME := VStr (name p)]} None (Some 0)] |}.

Definition path_of (file : string) : Path := {| parts := [str_of file] |}.

Definition empty_store : KnowledgeStore () := {| collection := ∅; drawn := 0 |}.

(** Two chunks of [a.pdf] and one of [b.docx], and the store that holds
    them. *)
Definition library_chunks : list DocumentChunk :=
  [chunk_of (str_of "alpha")
     {[FILENAME := VStr (str_of "a.pdf"); str_of "num_pages" := VInt 2]}
     (Some 1) (Some 0);
   chunk_of (str_of "beta")
     {[FILENAME := VStr (str_of "a.pdf"); str_of "num_pages" := VInt 2]}
     (Some 2) (Some 0);
   chunk_of (str_of "gamma") {[FILENAME := VStr (str_of "b.docx")]}
     None (Some 0)].

Definition library : KnowledgeStore () :=
  match add_document_chunks embed_unit uuid_seq scalars_only empty_store
          library_chunks with
  | Ok (_, st) => st
  | Err _ => empty_store
  end.

(** A chunk whose metadata holds a list, and a chunk without metadata. *)
Definition tagged_chunk : DocumentChunk :=
  chunk_of (str_of "x")
    {[FILENAME := VStr (str_of "a.pdf");
      str_of "tags" := VList [str_of "draft"]]}
    None None.

Definition bare_chunk : DocumentChunk := chunk_of (str_of "x") ∅ None None.

End Doubles.

(* ===================================================================== *)
(** ** The rest of the package *)
(* ===================================================================== *)

(** The [process] methods of the two processors, the registration done by
    the factory, and the manager of knowledge_base.py. The libraries that
    read a file, the file system and the console are collaborators: the
    readers and the file operations are arguments. *)

Module Extraction.

Import Processors.

(** [str(e)] for a raised exception: its message. *)
Definition exception_str (e : Exception) : str :=
  match e with
  | FileNotFoundError msg | ValueError msg | RuntimeError msg
  | TypeError msg => msg
  end.

(** base.py, [DocumentProcessor.extract_metadata] *)
Definition extract_metadata (file_path : Path) : gmap str pyval :=
  <[str_of "file_extension" := VStr (suffix file_path)]>
  (<[str_of "file_path" := VStr (path_str file_path)]>
  (<[str_of "filename" := VStr (name file_path)]> ∅)).

(** The windows the loop of [_split_text] cuts: the [i]-th starts at
    [i * step] and is [chunk_size] characters wide, clipped to the text. *)
Definition window (text : str) (chunk_size step : Z) (i : nat) : str :=
  slice text (Z.of_nat i * step) (Z.of_nat i * step + chunk_size).

(** How many windows start inside a text of [n] characters. *)
Definition window_count (n step : Z) : nat :=
  Z.to_nat ((n + step - 1) `div` step).

(** The chunks of a text, window by window; a text of at most one chunk
    is its own single chunk. *)
Definition windows_of (text : str) (chunk_size step : Z) : list str :=
  if len text <=? chunk_size then [text]
  else window text chunk_size step <$> seq 0 (window_count (len text) step).

(** The overlap a splitter works with: [DOCXProcessor._split_text] replaces
    one that is not below the chunk size. *)
Definition effective_overlap (cfg : Config) : Z :=
  if CHUNK_OVERLAP cfg >=? CHUNK_SIZE cfg then CHUNK_SIZE cfg `div` 2
  else CHUNK_OVERLAP cfg.

Module DOCXProcessor.

(** What [docx.Document(file_path)] gives: the text of each paragraph, the
    cell texts of each row of each table, and the number of inline
    shapes. *)
Record Document := {
  paragraphs : list str;
  tables : list (list (list str));
  inline_shapes : Z;
}.

(** The [text_content] list of [process]: the paragraphs that are not
    blank, then the rows of the tables, cells trimmed and joined by
    [" | "], that are not blank. *)
Definition text_content (doc : Document) : list str :=
  filter (fun text => strip text <> []) (paragraphs doc)
  ++ (table ← tables doc;
      row ← table;
      let row_text := join (str_of " | ") (strip <$> row) in
      if decide (strip row_text <> []) then [row_text] else []).

(** The chunk built for the piece at position [idx]. *)
Definition chunk_at (file_metadata : gmap str pyval) (idx : nat)
    (chunk_text : str) : DocumentChunk :=
  {| content := chunk_text;
     metadata :=
       <[str_of "supports_hebrew" := VInt 1]>
       (<[str_of "chunk_type" := VStr (str_of "text")]> file_metadata);
     page_number := None;
     chunk_index := Some (Z.of_nat idx) |}.

(** docx_processor.py, [DOCXProcessor.process]. [Document] is the reader
    of the library; an exception inside the [try] block is raised again as
    [RuntimeError]. The image count is written to the local [metadata]
    after the chunks were built from copies of it. [None]: the splitter
    did not return within [fuel] iterations. *)
Definition process (fuel : nat) (Document : Path -> result Document)
    (cfg : Config) (file_path : Path) : option (result (list DocumentChunk)) :=
  let file_metadata := extract_metadata file_path in
  match Document file_path with
  | Err e =>
      Some (Err (RuntimeError
                   (str_of "Error processing DOCX " ++ path_str file_path
                    ++ str_of ": " ++ exception_str e)))
  | Ok doc =>
      let full_text := join [NEWLINE] (text_content doc) in
      match Processors.DOCXProcessor._split_text fuel cfg full_text with
      | None => None
      | Some text_chunks =>
          let chunks := imap (chunk_at file_metadata) text_chunks in
          let image_count := inline_shapes doc in
          let file_metadata :=
            if image_count >? 0
            then <[str_of "image_count" := VInt image_count]> file_metadata
            else file_metadata in
          Some (Ok chunks)
      end
  end.

End DOCXProcessor.

Module PDFProcessor.

(** The chunk built for the piece at position [idx] of page [page_num]. *)
Definition chunk_at (file_metadata : gmap str pyval) (page_num : Z)
    (idx : nat) (chunk_text : str) : DocumentChunk :=
  {| content := chunk_text;
     metadata :=
       <[str_of "chunk_type" := VStr (str_of "text")]>
       (<[str_of "page_number" := VInt page_num]> file_metadata);
     page_number := Some page_num;
     chunk_index := Some (Z.of_nat idx) |}.

(** The [for page_num, page in enumerate(pdf_reader.pages, start=1)] loop,
    on the texts the pages give: a blank page adds nothing. *)
Fixpoint page_chunks (fuel : nat) (cfg : Config)
    (file_metadata : gmap str pyval) (pages : list str) (page_num : Z)
    : option (list DocumentChunk) :=
  match pages with
  | [] => Some []
  | text :: rest =>
      if decide (strip text <> []) then
        match Processors.PDFProcessor._split_text fuel cfg text with
        | None => None
        | Some text_chunks =>
            match page_chunks fuel cfg file_metadata rest (page_num + 1) with
            | None => None
            | Some chunks =>
                Some (imap (chunk_at file_metadata page_num) text_chunks
                      ++ chunks)
            end
        end
      else page_chunks fuel cfg file_metadata rest (page_num + 1)
  end.

(** The chunks of a document page by page: for each page that is not
    blank, in order, the windows of its text, numbered from 0, under the
    page's number. *)
Definition chunks_of_pages (cfg : Config) (file_metadata : gmap str pyval)
    (pages : list str) (page_num : Z) : list DocumentChunk :=
  mjoin
    (imap
       (fun k text =>
          if decide (strip text <> []) then
            imap (chunk_at file_metadata (page_num + Z.of_nat k))
              (windows_of text (CHUNK_SIZE cfg)
                 (CHUNK_SIZE cfg - CHUNK_OVERLAP cfg))
          else [])
       pages).

(** pdf_processor.py, [PDFProcessor.process]. [read_pages] opens the file
    and gives [page.extract_text()] for each page; an exception inside the
    [try] block is raised again as [RuntimeError]. *)
Definition process (fuel : nat) (read_pages : Path -> result (list str))
    (cfg : Config) (file_path : Path) : option (result (list DocumentChunk)) :=
  let file_metadata := extract_metadata file_path in
  match read_pages file_path with
  | Err e =>
      Some (Err (RuntimeError
                   (str_of "Error processing PDF " ++ path_str file_path
                    ++ str_of ": " ++ exception_str e)))
  | Ok pages =>
      let file_metadata :=
        <[str_of "num_pages" := VInt (len pages)]> file_metadata in
      match page_chunks fuel cfg file_metadata pages 1 with
      | None => None
      | Some chunks => Some (Ok chunks)
      end
  end.

End PDFProcessor.

Module DocumentProcessorFactory.

(** processors/__init__.py, [DocumentProcessorFactory.__init__]: the PDF
    processor is registered first, then the DOCX processor, each when its
    library could be imported. *)
Definition __init__ (pdf_available docx_available : bool)
    (pdf docx : DocumentProcessor) : list DocumentProcessor :=
  (if pdf_available then [pdf] else [])
  ++ (if docx_available then [docx] else []).

End DocumentProcessorFactory.

End Extraction.

(** A small word-processor document, a three-page document and their
    readers, with a chunk size of 8 and an overlap of 3. *)
Module Samples.

Import Processors Extraction.

Definition small_config : Config := {| CHUNK_SIZE := 8; CHUNK_OVERLAP := 3 |}.

Definition report : DOCXProcessor.Document :=
  {| DOCXProcessor.paragraphs :=
       [str_of "Intro"; str_of "  "; str_of "Body text"];
     DOCXProcessor.tables :=
       [[[str_of " a "; str_of "b"]; [str_of " "; str_of ""]]];
     DOCXProcessor.inline_shapes := 2 |}.

Definition read_report (file_path : Path) : result DOCXProcessor.Document :=
  Ok report.

Definition scan_pages : list str :=
  [str_of "first page"; str_of "  "; str_of "third"].

Definition read_scan (file_path : Path) : result (list str) := Ok scan_pages.

(** A store that holds one chunk of [b.docx], and two chunks of [a.pdf]
    to add to it. *)
Definition docx_only : Storage.KnowledgeStore () :=
  match Storage.add_document_chunks Doubles.embed_unit Doubles.uuid_seq
          Doubles.scalars_only Doubles.empty_store
          [Doubles.chunk_of (str_of "gamma")
             {[Storage.FILENAME := VStr (str_of "b.docx")]} None (Some 0)] with
  | Ok (_, st) => st
  | Err _ => Doubles.empty_store
  end.

Definition pdf_chunks : list DocumentChunk :=
  [Doubles.chunk_of (str_of "alpha")
     {[Storage.FILENAME := VStr (str_of "a.pdf")]} (Some 1) (Some 0);
   Doubles.chunk_of (str_of "beta")
     {[Storage.FILENAME := VStr (str_of "a.pdf")]} (Some 2) (Some 0)].

Definition both_files : Storage.KnowledgeStore () :=
  match Storage.add_document_chunks Doubles.embed_unit Doubles.uuid_seq
          Doubles.scalars_only docx_only pdf_chunks with
  | Ok (_, st) => st
  | Err _ => docx_only
  end.

End Samples.

(* ===================================================================== *)
(** ** qa/qa_system.py: what the operations build from the results *)
(* ===================================================================== *)

Module Retrieval.

Import Storage QA.

(** The entry of [sources] that the loop of [answer_question] makes of one
    result. *)
Definition source_info {Distance} (result : SearchResult Distance)
    : SourceInfo :=
  {| source_filename :=
       default (VStr (str_of "Unknown")) (sr_metadata result !! FILENAME);
     source_page_number :=
       default VNone (sr_metadata result !! str_of "page_number");
     source_chunk_index :=
       default VNone (sr_metadata result !! str_of "chunk_index") |}.

(** The [where] filter of [extract_insights] and [generate_tests]:
    [{"filename": document_name}] under [if document_name:], none
    otherwise. *)
Definition document_filter (document_name : option str)
    : option (gmap str pyval) :=
  if truthy document_name
  then Some {[FILENAME := VStr (default [] document_name)]}
  else None.

(** The context of a prompt: the contents of the results, numbered from 1
    and separated by an empty line. *)
Definition context_of {Distance} (opening closing : str)
    (results : list (SearchResult Distance)) : str :=
  join (str_of "

")
    (imap (fun idx result =>
             numbered opening idx closing (sr_content result))
          results).

(** [record["full_text"]] *)
Definition full_text (record : gmap str str) : str :=
  default [] (record !! FULL_TEXT).

(** [piece in text] *)
Definition occurs_in (piece text : str) : Prop :=
  exists before after, text = before ++ piece ++ after.

(** What an operation may add to the log of prompts for the results it
    retrieved: nothing when there are none, and otherwise one prompt, in
    which the content of every result occurs. *)
Definition sends_results {Distance} (results : list (SearchResult Distance))
    (log log' : list str) : Prop :=
  match results with
  | [] => log' = log
  | _ =>
      exists prompt,
        log' = log ++ [prompt]
        /\ Forall (fun result => occurs_in (sr_content result) prompt) results
  end.

End Retrieval.

(* ===================================================================== *)
(** ** knowledge_base.py *)
(* ===================================================================== *)

Module Manager.

Import Processors Storage.

(** The dictionaries [add_document] and [delete_document] return. *)
Record AddResult := {
  added_filename : str;
  chunks_added : Z;
  stored_path : str;
}.

Record DeleteResult := {
  deleted_filename : str;
  chunks_deleted : Z;
  file_deleted : bool;
}.

(** How a call ends: with a value, with an exception of the processors or
    of the store, or with an error of the file system. *)
Inductive outcome (OSError A : Type) :=
  | Returns (a : A)
  | Raises (e : Exception)
  | RaisesOS (e : OSError).
Arguments Returns {OSError A} a.
Arguments Raises {OSError A} e.
Arguments RaisesOS {OSError A} e.

(** The knowledge base: its store, the file system it works on, and the
    lines it has printed. *)
Record KnowledgeBase (Embedding FS : Type) := {
  knowledge_store : KnowledgeStore Embedding;
  files : FS;
  console : list str;
}.
Arguments knowledge_store {Embedding FS} _.
Arguments files {Embedding FS} _.
Arguments console {Embedding FS} _.

Section KnowledgeBase.

Context {Embedding FS OSError : Type}.

(** The collaborators of the store. *)
Variable embed_documents : list str -> list Embedding.
Variable uuid4 : nat -> str.
Variable validate_metadata : gmap str pyval -> bool.

(** The file system: [Path.exists], [shutil.copy2], [Path.unlink], and the
    registered processors, which read its files. *)
Variable exists_ : FS -> Path -> bool.
Variable copy2 : FS -> Path -> Path -> FS + OSError.
Variable unlink : FS -> Path -> FS + OSError.
Variable processors : FS -> list DocumentProcessor.

(** [Path(config.DOCUMENTS_PATH) / name] *)
Variable documents_path : str -> Path.

Definition print (kb : KnowledgeBase Embedding FS) (line : str)
    : KnowledgeBase Embedding FS :=
  {| knowledge_store := knowledge_store kb;
     files := files kb;
     console := console kb ++ [line] |}.

(** [KnowledgeBase.add_document] *)
Definition add_document (kb : KnowledgeBase Embedding FS) (file_path : Path)
    : outcome OSError AddResult * KnowledgeBase Embedding FS :=
  let kb := print kb (str_of "Processing document: " ++ name file_path) in
  match DocumentProcessorFactory.process_document (exists_ (files kb))
          (processors (files kb)) file_path with
  | Err e => (Raises e, kb)
  | Ok chunks =>
      let kb :=
        print kb (str_of "Extracted " ++ str_of_int (len chunks)
                  ++ str_of " chunks from document") in
      let kb := print kb (str_of "Adding to knowledge store...") in
      match add_document_chunks embed_documents uuid4 validate_metadata
              (knowledge_store kb) chunks with
      | Err e => (Raises e, kb)
      | Ok (chunk_ids, store) =>
          let kb :=
            {| knowledge_store := store; files := files kb;
               console := console kb |} in
          let dest_path := documents_path (name file_path) in
          match copy2 (files kb) file_path dest_path with
          | inr e => (RaisesOS e, kb)
          | inl fs =>
              let kb :=
                {| knowledge_store := knowledge_store kb; files := fs;
                   console := console kb |} in
              let kb :=
                print kb (str_of "Successfully added document: "
                          ++ name file_path) in
              (Returns {| added_filename := name file_path;
                          chunks_added := len chunk_ids;
                          stored_path := path_str dest_path |},
               kb)
          end
      end
  end.


Definition get_stats (kb : KnowledgeBase Embedding FS)
    : result (Z * Z * list pyval) :=
  Storage.get_stats (knowledge_store kb).

(** [KnowledgeBase.delete_document] *)
Definition delete_document (kb : KnowledgeBase Embedding FS) (filename : str)
    : outcome OSError DeleteResult * KnowledgeBase Embedding FS :=
  let '(chunks_deleted, store) :=
    Storage.delete_document (knowledge_store kb) filename in
  let kb :=
    {| knowledge_store := store; files := files kb; console := console kb |} in
  let file_path := documents_path filename in
  if exists_ (files kb) file_path then
    match unlink (files kb) file_path with
    | inr e => (RaisesOS e, kb)
    | inl fs =>
        (Returns {| deleted_filename := filename;
                    chunks_deleted := chunks_deleted;
                    file_deleted := true |},
         {| knowledge_store := knowledge_store kb; files := fs;
            console := console kb |})
    end
  else
    (Returns {| deleted_filename := filename;
                chunks_deleted := chunks_deleted;
                file_deleted := false |},
     kb).

End KnowledgeBase.

End Manager.

(** A file system as the list of the paths that exist, and a knowledge
    base on it. *)
Module Disk.

Import Processors Storage Manager.

Definition FS : Type := list (list str).

Definition exists_ (fs : FS) (p : Path) : bool := bool_decide (parts p ∈ fs).

Definition copy2 (fs : FS) (source dest : Path) : FS + str :=
  if exists_ fs source then inl (parts dest :: fs)
  else inr (str_of "No such file or directory").


Definition unlink (fs : FS) (p : Path) : FS + str :=
  inl (filter (fun q => q <> parts p) fs).

Definition processors (fs : FS) : list DocumentProcessor :=
  [Doubles.pdf_processor; Doubles.docx_processor].


Definition documents_path (name : str) : Path :=
  {| parts := [str_of "documents"; name] |}.

Definition inbox (file : string) : Path :=
  {| parts := [str_of "inbox"; str_of file] |}.

Definition fresh : KnowledgeBase () FS :=
  {| knowledge_store := Doubles.empty_store;
     files := [parts (inbox "a.pdf")];
     console := [] |}.

(** [a.pdf] added from the inbox: on this disk, on a disk that is full,
    and when no text is found in it. *)
Definition add_document (kb : KnowledgeBase () FS) (file_path : Path)
    : outcome str AddResult * KnowledgeBase () FS :=
  Manager.add_document Doubles.embed_unit Doubles.uuid_seq
    Doubles.scalars_only exists_ copy2 processors documents_path kb file_path.



Definition delete_document (kb : KnowledgeBase () FS) (filename : str)
    : outcome str DeleteResult * KnowledgeBase () FS :=
  Manager.delete_document exists_ unlink documents_path kb filename.

Definition added : KnowledgeBase () FS :=
  snd (add_document fresh (inbox "a.pdf")).

Definition report : AddResult :=
  {| added_filename := str_of "a.pdf"; chunks_added := 1;
     stored_path := str_of "documents/a.pdf" |}.

End Disk.

(* ===================================================================== *)
(** ** Properties of the Python fragment *)
(* ===================================================================== *)

Module PyFacts.

Lemma len_nonneg {A} (s : list A) : 0 <= len s.
Proof. unfold len. lia. Qed.

(** With both bounds non-negative a slice is a [take] of a [drop]. *)
Lemma slice_nonneg {A} (s : list A) (a b : Z) :
  0 <= a -> 0 <= b ->
  slice s a b = take (Z.to_nat (b - a)) (drop (Z.to_nat a) s).
Proof.
  intros Ha Hb. unfold slice, slice_index, len.
  destruct (Z.ltb_spec a 0); [lia|].
  destruct (Z.ltb_spec b 0); [lia|].
  destruct (Z.le_gt_cases a (Z.of_nat (length s))) as [Hle|Hgt].
  - rewrite (Z.min_l a) by lia.
    destruct (Z.le_gt_cases b (Z.of_nat (length s))).
    + by rewrite (Z.min_l b) by lia.
    + rewrite (Z.min_r b) by lia.
      rewrite !take_ge; [done| |]; rewrite length_drop; lia.
  - rewrite (Z.min_r a) by lia.
    rewrite !drop_ge by lia. by rewrite !take_nil.
Qed.

Lemma slice_to_nonneg {A} (s : list A) (b : Z) :
  0 <= b -> slice_to s b = take (Z.to_nat b) s.
Proof.
  intros Hb. unfold slice_to. rewrite slice_nonneg by lia.
  by rewrite Z.sub_0_r.
Qed.

End PyFacts.

(* ===================================================================== *)
(** ** The splitters *)
(* ===================================================================== *)

Module ChunkerProofs.

Import Processors PyFacts.

Section Windows.

Variables (text : str) (chunk_size chunk_overlap : Z).

(** The chunks a run of the loop appends do not depend on the chunks
    already collected. *)
Lemma split_loop_app fuel start chunks :
  split_loop fuel text chunk_size chunk_overlap start chunks
  = (chunks ++.) <$> split_loop fuel text chunk_size chunk_overlap start [].
Proof.
  revert start chunks. induction fuel as [|fuel IH]; intros start chunks; simpl.
  - destruct (start <? len text); simpl; [done|]. by rewrite app_nil_r.
  - destruct (start <? len text); simpl; [|by rewrite app_nil_r].
    rewrite IH. rewrite (IH _ [_]).
    destruct (split_loop fuel text chunk_size chunk_overlap _ []); simpl; [|done].
    by rewrite <- app_assoc.
Qed.

(** A window of a valid step, cut at its overlap, is the stretch of text
    up to the next window's overlap. *)
Lemma window_tail (s : nat) :
  0 <= chunk_overlap < chunk_size ->
  drop (Z.to_nat chunk_overlap) (take (Z.to_nat chunk_size) (drop s text))
  ++ drop (s + Z.to_nat chunk_size) text
  = drop (s + Z.to_nat chunk_overlap) text.
Proof.
  intros Hov.
  set (k := Z.to_nat chunk_size). set (o := Z.to_nat chunk_overlap).
  assert (Hk : k = (o + (k - o))%nat) by lia.
  rewrite Hk at 1. rewrite <- take_drop_commute, drop_drop.
  replace (s + k)%nat with ((s + o) + (k - o))%nat by lia.
  rewrite <- (drop_drop text (k - o) (s + o)). apply take_drop.
Qed.

(** More fuel does not change what the loop returns. *)
Lemma split_loop_mono fuel fuel' start chunks result :
  (fuel <= fuel')%nat ->
  split_loop fuel text chunk_size chunk_overlap start chunks = Some result ->
  split_loop fuel' text chunk_size chunk_overlap start chunks = Some result.
Proof.
  revert fuel' start chunks.
  induction fuel as [|fuel IH]; intros fuel' start chunks Hle; simpl;
    destruct (start <? len text) eqn:Hcond; try done.
  - destruct fuel'; simpl; by rewrite Hcond.
  - destruct fuel' as [|fuel']; [lia|]. simpl. rewrite Hcond.
    apply IH. lia.
  - destruct fuel'; simpl; by rewrite Hcond.
Qed.

(** With [0 <= overlap < chunk_size] the loop returns once the fuel covers
    the rest of the text, and the windows it appends, each cut at its
    overlap, make up the text from [start + overlap] on. *)
Lemma split_loop_covers fuel start chunks :
  0 <= chunk_overlap < chunk_size ->
  0 <= start ->
  (Z.to_nat (len text - start) <= fuel)%nat ->
  exists windows,
    split_loop fuel text chunk_size chunk_overlap start chunks
    = Some (chunks ++ windows)
    /\ concat (map (drop (Z.to_nat chunk_overlap)) windows)
       = drop (Z.to_nat (start + chunk_overlap)) text.
Proof.
  intros Hov. revert start chunks.
  induction fuel as [|fuel IH]; intros start chunks Hs Hfuel; simpl;
    destruct (Z.ltb_spec start (len text)) as [Hlt|Hge].
  - lia.
  - exists []. rewrite app_nil_r. split; [done|].
    simpl. rewrite drop_ge; [done|]. unfold len in Hge. lia.
  - destruct (IH (start + chunk_size - chunk_overlap)
                 (chunks ++ [slice text start (start + chunk_size)]))
      as (windows & Hrun & Hcat); [lia|lia|].
    exists (slice text start (start + chunk_size) :: windows).
    split; [by rewrite Hrun, <- app_assoc|].
    simpl. rewrite Hcat, slice_nonneg by lia.
    replace (start + chunk_size - start) with chunk_size by lia.
    replace (Z.to_nat (start + chunk_size - chunk_overlap + chunk_overlap))
      with (Z.to_nat start + Z.to_nat chunk_size)%nat by lia.
    replace (Z.to_nat (start + chunk_overlap))
      with (Z.to_nat start + Z.to_nat chunk_overlap)%nat by lia.
    by apply window_tail.
  - exists []. rewrite app_nil_r. split; [done|].
    simpl. rewrite drop_ge; [done|]. unfold len in Hge. lia.
Qed.

(** Run from the start of a text longer than one chunk, the loop returns
    chunks that give the text back once the overlap is removed. *)
Lemma split_loop_coverage fuel :
  0 <= chunk_overlap < chunk_size ->
  chunk_size < len text ->
  (length text <= fuel)%nat ->
  exists chunks,
    split_loop fuel text chunk_size chunk_overlap 0 [] = Some chunks
    /\ remove_overlap chunk_overlap chunks = text.
Proof.
  intros Hov Hlong Hfuel. unfold len in Hlong.
  destruct fuel as [|fuel]; [lia|]. simpl.
  destruct (Z.ltb_spec 0 (len text)) as [_|Hge]; [|unfold len in Hge; lia].
  destruct (split_loop_covers fuel (0 + chunk_size - chunk_overlap)
              ([] ++ [slice text 0 (0 + chunk_size)]))
    as (windows & Hrun & Hcat); [done|lia|unfold len; lia|].
  eexists. split; [exact Hrun|].
  simpl. rewrite Hcat, slice_nonneg by lia.
  replace (0 + chunk_size - chunk_overlap + chunk_overlap) with chunk_size by lia.
  replace (0 + chunk_size - 0) with chunk_size by lia.
  simpl. apply take_drop.
Qed.

(** When the overlap is not below the chunk size, [start] never moves
    forward and the loop never leaves a non-empty text. *)
Lemma split_loop_stuck fuel start chunks :
  chunk_size <= chunk_overlap ->
  start <= 0 -> 0 < len text ->
  split_loop fuel text chunk_size chunk_overlap start chunks = None.
Proof.
  intros Hov. revert start chunks.
  induction fuel as [|fuel IH]; intros start chunks Hs Hn; simpl;
    destruct (Z.ltb_spec start (len text)); try lia; [done|].
  apply IH; lia.
Qed.

End Windows.

(** X1, the guard of [DOCXProcessor._split_text] (the DOCX half of C1): an
    overlap that is not below the chunk size is replaced by half the chunk
    size, after which the splitter returns chunks that cover the text. *)
Lemma docx_split_text_clamp cfg text fuel :
  0 < CHUNK_SIZE cfg ->
  CHUNK_OVERLAP cfg >= CHUNK_SIZE cfg ->
  (length text <= fuel)%nat ->
  DOCXProcessor._split_text fuel cfg text
  = DOCXProcessor._split_text fuel
      {| CHUNK_SIZE := CHUNK_SIZE cfg;
         CHUNK_OVERLAP := CHUNK_SIZE cfg `div` 2 |} text
  /\ exists chunks,
       DOCXProcessor._split_text fuel cfg text = Some chunks
       /\ remove_overlap (CHUNK_SIZE cfg `div` 2) chunks = text.
Proof.
  intros Hcs Hov Hfuel. destruct cfg as [cs ov]; simpl in *.
  assert (Hhalf : 0 <= cs `div` 2 < cs).
  { split; [apply Z.div_pos; lia | apply Z.div_lt; lia]. }
  unfold DOCXProcessor._split_text; simpl.
  destruct (Z.geb_spec ov cs) as [_|?]; [|lia].
  destruct (Z.geb_spec (cs `div` 2) cs) as [?|_]; [lia|].
  split; [done|].
  destruct (Z.leb_spec (len text) cs) as [Hle|Hgt].
  - exists [text]. split; [done|]. simpl. by rewrite app_nil_r.
  - by apply split_loop_coverage.
Qed.

Lemma docx_split_text_clamp_witness :
  DOCXProcessor._split_text 3 {| CHUNK_SIZE := 2; CHUNK_OVERLAP := 2 |}
    (str_of "abc")
  = DOCXProcessor._split_text 3 {| CHUNK_SIZE := 2; CHUNK_OVERLAP := 1 |}
      (str_of "abc")
  /\ exists chunks,
       DOCXProcessor._split_text 3 {| CHUNK_SIZE := 2; CHUNK_OVERLAP := 2 |}
         (str_of "abc") = Some chunks
       /\ remove_overlap 1 chunks = str_of "abc".
Proof.
  apply (docx_split_text_clamp {| CHUNK_SIZE := 2; CHUNK_OVERLAP := 2 |}
           (str_of "abc") 3); simpl; lia.
Defined.

(** C1, the processor without the guard: with an overlap that is not below
    a positive chunk size, [PDFProcessor._split_text] does not return on a
    text longer than one chunk, whatever the bound on its iterations. *)
Theorem pdf_split_text_never_returns cfg text :
  0 < CHUNK_SIZE cfg ->
  CHUNK_OVERLAP cfg >= CHUNK_SIZE cfg ->
  CHUNK_SIZE cfg < len text ->
  never_returns (fun fuel => PDFProcessor._split_text fuel cfg text).
Proof.
  intros Hcs Hov Hlong fuel. unfold PDFProcessor._split_text.
  destruct (Z.leb_spec (len text) (CHUNK_SIZE cfg)); [lia|].
  apply split_loop_stuck; lia.
Qed.

Lemma pdf_split_text_never_returns_witness :
  never_returns
    (fun fuel =>
       PDFProcessor._split_text fuel {| CHUNK_SIZE := 2; CHUNK_OVERLAP := 2 |}
         (str_of "abc")).
Proof.
  apply (pdf_split_text_never_returns
           {| CHUNK_SIZE := 2; CHUNK_OVERLAP := 2 |} (str_of "abc"));
    vm_compute; congruence.
Defined.

(** C2: for [0 <= overlap < chunk_size] both splitters return, given fuel
    for one iteration per character, the same chunks for every such bound;
    the chunks joined with the overlap removed are the text, and a text of
    at most [chunk_size] characters (the empty one too) comes back as the
    single chunk. *)
Theorem chunk_coverage cfg text :
  0 <= CHUNK_OVERLAP cfg < CHUNK_SIZE cfg ->
  exists chunks,
    (forall fuel, (length text <= fuel)%nat ->
       DOCXProcessor._split_text fuel cfg text = Some chunks
       /\ PDFProcessor._split_text fuel cfg text = Some chunks)
    /\ remove_overlap (CHUNK_OVERLAP cfg) chunks = text
    /\ (len text <= CHUNK_SIZE cfg -> chunks = [text]).
Proof.
  intros Hov. destruct cfg as [cs ov]; simpl in *.
  unfold DOCXProcessor._split_text, PDFProcessor._split_text; simpl.
  destruct (Z.geb_spec ov cs) as [?|_]; [lia|].
  destruct (Z.leb_spec (len text) cs) as [Hle|Hgt].
  - exists [text]. split; [done|]. split; [|done].
    simpl. by rewrite app_nil_r.
  - destruct (split_loop_coverage text cs ov (length text))
      as (chunks & Hrun & Hcover); [done|done|done|].
    exists chunks. split; [|split; [done|lia]].
    intros fuel Hfuel.
    by rewrite (split_loop_mono text cs ov (length text) fuel 0 [] chunks).
Qed.

Lemma chunk_coverage_witness :
  exists chunks,
    (forall fuel, (10 <= fuel)%nat ->
       DOCXProcessor._split_text fuel
         {| CHUNK_SIZE := 4; CHUNK_OVERLAP := 2 |} (str_of "abcdefghij")
       = Some chunks
       /\ PDFProcessor._split_text fuel
            {| CHUNK_SIZE := 4; CHUNK_OVERLAP := 2 |} (str_of "abcdefghij")
          = Some chunks)
    /\ remove_overlap 2 chunks = str_of "abcdefghij"
    /\ (len (str_of "abcdefghij") <= 4 -> chunks = [str_of "abcdefghij"]).
Proof.
  apply (chunk_coverage {| CHUNK_SIZE := 4; CHUNK_OVERLAP := 2 |}
           (str_of "abcdefghij")).
  simpl. lia.
Defined.

End ChunkerProofs.

(* ===================================================================== *)
(** ** The processor registry *)
(* ===================================================================== *)

Module RegistryProofs.

Import Processors DocumentProcessorFactory.

(** [get_processor] skips the processors that refuse the path. *)
Lemma get_processor_skip before rest file_path :
  Forall (fun p => can_process p file_path = false) before ->
  get_processor (before ++ rest) file_path = get_processor rest file_path.
Proof.
  induction 1 as [|p before Hp _ IH]; simpl; [done|]. by rewrite Hp.
Qed.

Lemma get_processor_none processors file_path :
  Forall (fun p => can_process p file_path = false) processors ->
  get_processor processors file_path = None.
Proof.
  intros H. rewrite <- (app_nil_r processors). by rewrite get_processor_skip.
Qed.

(** What [get_processor] returns accepts the path and is the first
    registered processor to do so. *)
Lemma get_processor_some processors file_path processor :
  get_processor processors file_path = Some processor ->
  can_process processor file_path = true
  /\ exists before after,
       processors = before ++ processor :: after
       /\ Forall (fun p => can_process p file_path = false) before.
Proof.
  induction processors as [|p rest IH]; simpl; [done|].
  destruct (can_process p file_path) eqn:Hp.
  - intros [= <-]. split; [done|]. by exists [], rest.
  - intros (Hcan & before & after & -> & Hbefore)%IH. split; [done|].
    exists (p :: before), after. split; [done|]. by constructor.
Qed.

(** C7: [process_document] raises [FileNotFoundError] for a path that does
    not exist; for an existing path that no registered processor accepts it
    raises [ValueError] (the unsupported-format signal); otherwise it is
    the output, unchanged, of the first processor in registration order
    that accepts the path. *)
Theorem process_document_contract exists_ processors file_path :
  (exists_ file_path = false ->
   exists msg,
     process_document exists_ processors file_path
     = Err (FileNotFoundError msg))
  /\ (exists_ file_path = true ->
      Forall (fun p => can_process p file_path = false) processors ->
      get_processor processors file_path = None
      /\ exists msg,
           process_document exists_ processors file_path
           = Err (ValueError msg))
  /\ (forall before processor after,
        exists_ file_path = true ->
        processors = before ++ processor :: after ->
        Forall (fun p => can_process p file_path = false) before ->
        can_process processor file_path = true ->
        get_processor processors file_path = Some processor
        /\ process_document exists_ processors file_path
           = process processor file_path).
Proof.
  unfold process_document. split; [|split].
  - intros ->. simpl. by eexists.
  - intros -> Hnone. simpl. rewrite get_processor_none by done.
    split; [done|]. by eexists.
  - intros before processor after -> -> Hbefore Hcan. simpl.
    rewrite get_processor_skip by done. simpl. by rewrite Hcan.
Qed.

Lemma process_document_contract_witness :
  (exists msg,
     process_document (fun _ => false)
       [Doubles.pdf_processor; Doubles.docx_processor]
       (Doubles.path_of "nonexistent.pdf")
     = Err (FileNotFoundError msg))
  /\ (exists msg,
        process_document (fun _ => true)
          [Doubles.pdf_processor; Doubles.docx_processor]
          (Doubles.path_of "test.xyz")
        = Err (ValueError msg))
  /\ process_document (fun _ => true)
       [Doubles.pdf_processor; Doubles.docx_processor]
       (Doubles.path_of "test.docx")
     = process Doubles.docx_processor (Doubles.path_of "test.docx").
Proof.
  split; [|split].
  - destruct (process_document_contract (fun _ => false)
                [Doubles.pdf_processor; Doubles.docx_processor]
                (Doubles.path_of "nonexistent.pdf")) as (Hmissing & _ & _).
    apply Hmissing. reflexivity.
  - destruct (process_document_contract (fun _ => true)
                [Doubles.pdf_processor; Doubles.docx_processor]
                (Doubles.path_of "test.xyz")) as (_ & Hnone & _).
    apply Hnone; [reflexivity|]. repeat constructor.
  - destruct (process_document_contract (fun _ => true)
                [Doubles.pdf_processor; Doubles.docx_processor]
                (Doubles.path_of "test.docx")) as (_ & _ & Hfirst).
    apply (Hfirst [Doubles.pdf_processor] Doubles.docx_processor []);
      [reflexivity|reflexivity| |reflexivity].
    repeat constructor.
Defined.

End RegistryProofs.

(* ===================================================================== *)
(** ** The knowledge store *)
(* ===================================================================== *)

Module StorageProofs.

Import Processors Storage.

Section Deletion.

Context {Embedding : Type}.
Implicit Types (st : KnowledgeStore Embedding).
Implicit Types (coll : gmap str (StoredRecord Embedding)).

Lemma matches_filename filename (record : StoredRecord Embedding) :
  matches {[FILENAME := VStr filename]} (r_metadata record)
  <-> of_document filename record.
Proof. unfold matches. by rewrite map_Forall_singleton. Qed.

(** [collection.get(where={"filename": filename})] lists exactly the
    records of the document. *)
Lemma collection_get_filename coll filename id record :
  (id, record) ∈ collection_get (Some {[FILENAME := VStr filename]}) coll
  <-> coll !! id = Some record /\ of_document filename record.
Proof.
  unfold collection_get.
  rewrite elem_of_map_to_list, map_lookup_filter_Some. simpl.
  by rewrite matches_filename.
Qed.

Lemma collection_delete_lookup coll ids id :
  collection_delete ids coll !! id
  = if decide (id ∈ ids) then None else coll !! id.
Proof.
  unfold collection_delete. induction ids as [|i ids IH].
  - destruct (decide (id ∈ [])) as [Hin|_]; [|done].
    by apply elem_of_nil in Hin.
  - change (foldr delete coll (i :: ids)) with (delete i (foldr delete coll ids)).
    destruct (decide (id ∈ i :: ids)) as [Hin|Hout].
    + destruct (decide (i = id)) as [-> |Hne]; [by rewrite lookup_delete_eq|].
      rewrite lookup_delete_ne, IH by done.
      apply elem_of_cons in Hin as [-> |Hin]; [done|].
      by rewrite decide_True.
    + rewrite lookup_delete_ne, IH.
      * rewrite decide_False; [done|]. intros ?. apply Hout. by right.
      * intros ->. apply Hout. by left.
Qed.

(** [delete_document] keeps the records of the other documents, and
    counts the records of this one. *)
Lemma delete_document_spec st filename :
  delete_document st filename
  = (Z.of_nat (size (filter (fun kv => of_document filename kv.2)
                            (collection st))),
     {| collection :=
          filter (fun kv => ¬ of_document filename kv.2) (collection st);
        drawn := drawn st |}).
Proof.
  unfold delete_document.
  set (hits := collection_get _ _).
  assert (Hhits : forall id record,
            (id, record) ∈ hits
            <-> collection st !! id = Some record
                /\ of_document filename record)
    by apply collection_get_filename.
  assert (Hsize : length hits.*1
                  = size (filter (fun kv => of_document filename kv.2)
                                 (collection st))).
  { rewrite length_fmap. unfold hits, collection_get.
    rewrite length_map_to_list. f_equal. apply map_filter_ext.
    intros id record _. simpl. apply matches_filename. }
  assert (Hkept : collection_delete hits.*1 (collection st)
                  = filter (fun kv => ¬ of_document filename kv.2)
                           (collection st)).
  { apply map_eq. intros id. rewrite collection_delete_lookup.
    destruct (decide (id ∈ hits.*1)) as [Hin|Hout].
    - apply list_elem_of_fmap in Hin as ([id' record] & -> & Hin).
      apply Hhits in Hin as [Hlook Hdoc]. simpl.
      symmetry. apply map_lookup_filter_None. right.
      intros record' Hlook'. simpl. rewrite Hlook in Hlook'.
      injection Hlook' as <-. by intros ?.
    - destruct (collection st !! id) as [record|] eqn:Hlook.
      + symmetry. apply map_lookup_filter_Some. split; [done|]. simpl.
        intros Hdoc. apply Hout.
        apply list_elem_of_fmap. exists (id, record). split; [done|].
        by apply Hhits.
      + symmetry. apply map_lookup_filter_None. by left. }
  destruct (hits.*1) as [|id ids] eqn:Hids.
  - simpl in Hsize. rewrite <- Hsize. simpl.
    f_equal. destruct st as [coll n]. simpl in *. f_equal.
    rewrite <- Hkept. done.
  - rewrite <- Hsize, Hkept. done.
Qed.

End Deletion.

(** *** Listing the documents *)

Section Sorted.

Lemma mapM_as_str l ss : mapM as_str l = Some ss -> l = VStr <$> ss.
Proof.
  revert ss. induction l as [|v l IH]; intros ss; simpl.
  - by intros [= <-].
  - destruct v; simpl; try done.
    destruct (mapM as_str l) as [ss'|]; simpl; [|done].
    intros [= <-]. simpl. f_equal. by apply IH.
Qed.

Lemma mapM_as_int l zs : mapM as_int l = Some zs -> l = VInt <$> zs.
Proof.
  revert zs. induction l as [|v l IH]; intros zs; simpl.
  - by intros [= <-].
  - destruct v; simpl; try done.
    destruct (mapM as_int l) as [zs'|]; simpl; [|done].
    intros [= <-]. simpl. f_equal. by apply IH.
Qed.

Lemma mapM_as_list l ls : mapM as_list l = Some ls -> l = VList <$> ls.
Proof.
  revert ls. induction l as [|v l IH]; intros ls; simpl.
  - by intros [= <-].
  - destruct v; simpl; try done.
    destruct (mapM as_list l) as [ls'|]; simpl; [|done].
    intros [= <-]. simpl. f_equal. by apply IH.
Qed.

(** [sorted] returns a rearrangement of its argument. *)
Lemma sorted_Permutation l l' : sorted l = Ok l' -> l' ≡ₚ l.
Proof.
  unfold sorted. destruct l as [|v [|w l]]; try by intros [= <-].
  destruct (mapM as_str _) as [ss|] eqn:Hs.
  { intros [= <-]. rewrite (mapM_as_str _ _ Hs).
    by rewrite merge_sort_Permutation. }
  destruct (mapM as_int _) as [zs|] eqn:Hz.
  { intros [= <-]. rewrite (mapM_as_int _ _ Hz).
    by rewrite merge_sort_Permutation. }
  destruct (mapM as_list _) as [ls|] eqn:Hl; [|done].
  intros [= <-]. rewrite (mapM_as_list _ _ Hl).
  by rewrite merge_sort_Permutation.
Qed.

(** [sorted] returns exactly when its argument has at most one element or
    elements of one kind. *)
Lemma sorted_is_Ok l :
  is_Ok (sorted l) <-> (length l <= 1)%nat \/ comparable (.∈ l).
Proof.
  unfold comparable.
  assert (Hall : forall {B} (f : pyval -> option B),
            is_Some (mapM f l) <-> forall v, v ∈ l -> is_Some (f v)).
  { intros B f. rewrite mapM_is_Some, Forall_forall. done. }
  rewrite <- !Hall. unfold sorted.
  destruct l as [|v [|w l]]; simpl length.
  - split; [left; lia|done].
  - split; [left; lia|done].
  - destruct (mapM as_str _) as [ss|]; [split; [|done]; right; left; by eexists|].
    destruct (mapM as_int _) as [zs|];
      [split; [|done]; right; right; left; by eexists|].
    destruct (mapM as_list _) as [ls|];
      [split; [|done]; right; right; right; by eexists|].
    simpl. split; [done|].
    intros [?|[[? [=]]|[[? [=]]|[? [=]]]]]. lia.
Qed.

End Sorted.

Section Listing.

Context {Embedding : Type}.
Implicit Types (st : KnowledgeStore Embedding).

Lemma collect_filenames_Ok metadatas filenames filenames' :
  collect_filenames metadatas filenames = Ok filenames' ->
  forall v,
    v ∈ filenames'
    <-> v ∈ filenames
        \/ exists metadata, metadata ∈ metadatas /\ metadata !! FILENAME = Some v.
Proof.
  revert filenames. induction metadatas as [|md mds IH]; intros F; simpl.
  - intros [= <-] v. split; [by left|]. intros [?|(? & ?%elem_of_nil & _)]; done.
  - destruct (md !! FILENAME) as [w|] eqn:Hw.
    + destruct (hashable w); [|done]. intros Hrun v.
      rewrite (IH _ Hrun v), elem_of_union, elem_of_singleton.
      split.
      * intros [[?| ->]|(md' & ? & ?)]; [by left| |].
        -- right. exists md. split; [by left|done].
        -- right. exists md'. split; [by right|done].
      * intros [?|(md' & [-> |?]%elem_of_cons & Hv)]; [by left; left| |].
        -- rewrite Hw in Hv. injection Hv as ->. left. by right.
        -- right. by exists md'.
    + intros Hrun v. rewrite (IH _ Hrun v). split.
      * intros [?|(md' & ? & ?)]; [by left|].
        right. exists md'. split; [by right|done].
      * intros [?|(md' & [-> |?]%elem_of_cons & Hv)]; [by left| |].
        -- congruence.
        -- right. by exists md'.
Qed.

Lemma collect_filenames_is_Ok metadatas filenames :
  is_Ok (collect_filenames metadatas filenames)
  <-> forall metadata v,
        metadata ∈ metadatas -> metadata !! FILENAME = Some v ->
        hashable v = true.
Proof.
  revert filenames. induction metadatas as [|md mds IH]; intros F; simpl.
  - split; [|done]. by intros _ ? ? ?%elem_of_nil.
  - destruct (md !! FILENAME) as [w|] eqn:Hw.
    + destruct (hashable w) eqn:Hhash.
      * rewrite IH. split.
        -- intros H md' v [-> |?]%elem_of_cons Hv; [congruence|by eapply H].
        -- intros H md' v ? Hv. eapply H; [by right|done].
      * simpl. split; [done|]. intros H.
        specialize (H md w (list_elem_of_here _ _) Hw). congruence.
    + rewrite IH. split.
      * intros H md' v [-> |?]%elem_of_cons Hv; [congruence|by eapply H].
      * intros H md' v ? Hv. eapply H; [by right|done].
Qed.

Lemma stored_filename_metadatas st v :
  (exists metadata,
     metadata ∈ (fun kv => r_metadata kv.2) <$> collection_get None (collection st)
     /\ metadata !! FILENAME = Some v)
  <-> stored_filename st v.
Proof.
  unfold stored_filename, collection_get. split.
  - intros (md & ([id record] & -> & Hin)%list_elem_of_fmap & Hv).
    apply elem_of_map_to_list in Hin. by exists id, record.
  - intros (id & record & Hlook & Hv). exists (r_metadata record).
    split; [|done]. apply list_elem_of_fmap. exists (id, record).
    split; [done|]. by apply elem_of_map_to_list.
Qed.

(** [get_all_documents] lists the stored [filename] values, all of them
    and no other. *)
Lemma get_all_documents_elem st documents :
  get_all_documents st = Ok documents ->
  forall v, v ∈ documents <-> stored_filename st v.
Proof.
  unfold get_all_documents. intros Hrun v.
  rewrite <- stored_filename_metadatas.
  destruct (_ <$> collection_get None (collection st)) as [|md mds] eqn:Hmds.
  - injection Hrun as <-. split; [by intros ?%elem_of_nil|].
    by intros (? & ?%elem_of_nil & _).
  - destruct (collect_filenames (md :: mds) ∅) as [F|] eqn:Hcollect; [|done].
    rewrite (sorted_Permutation _ _ Hrun), elem_of_elements.
    rewrite (collect_filenames_Ok _ _ _ Hcollect v).
    split; [intros [?%elem_of_empty|?]; done|by right].
Qed.

(** It returns exactly when every stored [filename] value can be hashed,
    and they are either at most one or of one kind. *)
Lemma get_all_documents_is_Ok st :
  is_Ok (get_all_documents st)
  <-> (forall v, stored_filename st v -> hashable v = true)
      /\ ((forall v w, stored_filename st v -> stored_filename st w -> v = w)
          \/ comparable (stored_filename st)).
Proof.
  unfold get_all_documents.
  pose proof (stored_filename_metadatas st) as Hmd.
  destruct (_ <$> collection_get None (collection st)) as [|md mds] eqn:Hmds.
  - split; [intros _|done].
    assert (Hnone : forall v, ¬ stored_filename st v).
    { intros v (? & ?%elem_of_nil & _)%Hmd. done. }
    split; [by intros v ?%Hnone|]. left. by intros v w ?%Hnone.
  - pose proof (collect_filenames_is_Ok (md :: mds) ∅) as Hhash.
    destruct (collect_filenames (md :: mds) ∅) as [F|] eqn:Hcollect.
    + pose proof (collect_filenames_Ok _ _ _ Hcollect) as HF.
      assert (Hin : forall v, v ∈ elements F <-> stored_filename st v).
      { intros v. rewrite elem_of_elements, HF, <- Hmd.
        split; [intros [?%elem_of_empty|?]; done|by right]. }
      rewrite sorted_is_Ok. split.
      * intros Hsort. split.
        { intros v (md' & ? & ?)%Hmd. by eapply Hhash. }
        destruct Hsort as [Hlen|Hcmp].
        -- left. intros v w Hv%Hin Hw%Hin.
           destruct (elements F) as [|x [|y l]]; simpl in Hlen; [| |lia].
           ++ by apply elem_of_nil in Hv.
           ++ apply list_elem_of_singleton in Hv, Hw. congruence.
        -- right. unfold comparable in *.
           destruct Hcmp as [H|[H|H]]; [left|right; left|right; right];
             intros v Hv%Hin; by apply H.
      * intros [_ [Huniq|Hcmp]].
        -- left. pose proof (NoDup_elements F) as Hnd.
           destruct (elements F) as [|x [|y l]]; simpl; [lia|lia|].
           assert (x = y) as ->.
           { apply Huniq; apply Hin; [by left|right; by left]. }
           apply NoDup_cons in Hnd as [Hx _]. destruct Hx. by left.
        -- right. unfold comparable in *.
           destruct Hcmp as [H|[H|H]]; [left|right; left|right; right];
             intros v Hv%Hin; by apply H.
    + simpl. split; [done|]. intros [Hh _]. apply Hhash.
      intros md' v Hmd' Hv. apply Hh, Hmd. by exists md'.
Qed.

End Listing.

(** *** Adding chunks *)

Section Adding.

Context {Embedding : Type}.
Variable embed_documents : list str -> list Embedding.
Variable uuid4 : nat -> str.
Variable validate_metadata : gmap str pyval -> bool.

Implicit Types (st : KnowledgeStore Embedding).

(** Two different literal keys are not equal. *)
Local Ltac key_clash :=
  match goal with
  | H : str_of _ = str_of _ |- _ => by vm_compute in H
  | H : ?k ∉ _ |- _ => exfalso; apply H; vm_compute; set_solver
  | H : ?k ∈ _ |- _ =>
      exfalso; vm_compute in H;
      repeat (apply elem_of_cons in H as [H|H]; [by vm_compute in H|]);
      by apply elem_of_nil in H
  end.

(** The prepared metadata, key by key. *)
Lemma prepare_metadata_lookup chunk key :
  prepare_metadata chunk !! key = stored_value chunk key.
Proof.
  unfold prepare_metadata, stored_value, FILENAME.
  destruct (Processors.page_number chunk) as [p|];
    [case_bool_decide as Hp|];
    destruct (Processors.chunk_index chunk) as [i|]; simpl;
    rewrite ?lookup_insert, lookup_empty;
    repeat case_decide; subst; try done; try key_clash.
Qed.

(** The loop appends, for the chunks in order, the identifiers drawn, the
    contents and the prepared metadata. *)
Lemma prepare_spec chunks n ids documents metadatas :
  prepare uuid4 chunks n ids documents metadatas
  = (ids ++ (uuid4 <$> seq n (length chunks)),
     documents ++ (content <$> chunks),
     metadatas ++ (prepare_metadata <$> chunks),
     (n + length chunks)%nat).
Proof.
  revert n ids documents metadatas.
  induction chunks as [|chunk chunks IH]; intros n ids documents metadatas;
    simpl.
  - rewrite !app_nil_r. do 3 f_equal. lia.
  - rewrite IH, <- !app_assoc. simpl. do 3 f_equal. lia.
Qed.

Lemma zip_records_lookup (ids documents : list str)
    (embeddings : list Embedding) (metadatas : list (gmap str pyval))
    i id document e metadata :
  ids !! i = Some id -> documents !! i = Some document ->
  embeddings !! i = Some e -> metadatas !! i = Some metadata ->
  zip_records ids documents embeddings metadatas !! i
  = Some (id, {| r_document := document; r_embedding := e;
                 r_metadata := metadata |}).
Proof.
  revert documents embeddings metadatas i.
  induction ids as [|id' ids IH];
    intros [|d documents] [|e' embeddings] [|m metadatas] [|i]; simpl;
    try done.
  - by intros [= ->] [= ->] [= ->] [= ->].
  - apply IH.
Qed.

Lemma zip_records_fst (ids documents : list str)
    (embeddings : list Embedding) (metadatas : list (gmap str pyval)) :
  length documents = length ids -> length embeddings = length ids ->
  length metadatas = length ids ->
  (zip_records ids documents embeddings metadatas).*1 = ids.
Proof.
  revert documents embeddings metadatas.
  induction ids as [|id ids IH];
    intros [|d documents] [|e embeddings] [|m metadatas]; simpl; try done.
  intros [=] [=] [=]. f_equal. by apply IH.
Qed.

(** On a non-empty sequence, [add_document_chunks] hands the index the
    identifiers drawn, the contents, their embeddings and the prepared
    metadata, and returns the identifiers. *)
Lemma add_document_chunks_unfold st chunks :
  chunks <> [] ->
  add_document_chunks embed_documents uuid4 validate_metadata st chunks
  = match collection_add validate_metadata
            (uuid4 <$> seq (drawn st) (length chunks))
            (content <$> chunks)
            (embed_documents (content <$> chunks))
            (prepare_metadata <$> chunks) (collection st) with
    | Err e => Err e
    | Ok coll =>
        Ok (uuid4 <$> seq (drawn st) (length chunks),
            {| collection := coll;
               drawn := (drawn st + length chunks)%nat |})
    end.
Proof.
  destruct chunks as [|c0 chunks0]; [done|]. intros _.
  unfold add_document_chunks. by rewrite prepare_spec.
Qed.

(** A successful [add_document_chunks] stores, for the chunk at each
    position, a record under the identifier returned at that position: its
    document is the chunk's content and its metadata the prepared one. *)
Lemma add_document_chunks_persists st chunks ids st' :
  add_document_chunks embed_documents uuid4 validate_metadata st chunks
  = Ok (ids, st') ->
  (forall id, id ∈ ids -> collection st !! id = None) ->
  forall i chunk, chunks !! i = Some chunk ->
  exists id record,
    ids !! i = Some id
    /\ collection st' !! id = Some record
    /\ r_document record = content chunk
    /\ r_metadata record = prepare_metadata chunk.
Proof.
  intros Hadd Hfresh i chunk Hi.
  rewrite add_document_chunks_unfold in Hadd by (by intros ->).
  unfold collection_add in Hadd.
  set (ids0 := uuid4 <$> seq (drawn st) (length chunks)) in *.
  set (embs := embed_documents (content <$> chunks)) in *.
  case_bool_decide as Hlen; cbn [negb] in Hadd; [|done].
  case_bool_decide as Hnd; cbn [negb] in Hadd; [|done].
  destruct (forallb _ _); cbn [negb] in Hadd; [|done].
  injection Hadd as <- <-. cbn [collection].
  destruct Hlen as (Hdocs & Hembs & Hmds).
  assert (Hlt : (i < length chunks)%nat) by by eapply lookup_lt_Some.
  assert (ids0 !! i = Some (uuid4 (drawn st + i)%nat)) as Hid.
  { unfold ids0. by rewrite list_lookup_fmap, lookup_seq_lt. }
  destruct (lookup_lt_is_Some_2 embs i) as [e He].
  { rewrite Hembs. unfold ids0. by rewrite length_fmap, length_seq. }
  exists (uuid4 (drawn st + i)%nat),
    {| r_document := content chunk; r_embedding := e;
       r_metadata := prepare_metadata chunk |}.
  split; [exact Hid|]. split; [|done].
  rewrite lookup_union_r by (apply Hfresh; by eapply list_elem_of_lookup_2).
  apply elem_of_list_to_map_1.
  - by rewrite zip_records_fst.
  - eapply list_elem_of_lookup_2, zip_records_lookup; [done| |done|].
    + by rewrite list_lookup_fmap, Hi.
    + by rewrite list_lookup_fmap, Hi.
Qed.

(** [add_document_chunks] returns when the identifiers drawn differ from
    one another, the provider embeds every document, and the index accepts
    the prepared metadata. *)
Lemma add_document_chunks_returns st chunks :
  NoDup (uuid4 <$> seq (drawn st) (length chunks)) ->
  length (embed_documents (content <$> chunks)) = length chunks ->
  Forall (fun chunk => validate_metadata (prepare_metadata chunk) = true)
    chunks ->
  exists st',
    add_document_chunks embed_documents uuid4 validate_metadata st chunks
    = Ok (uuid4 <$> seq (drawn st) (length chunks), st').
Proof.
  intros Hnd Hembs Hvalid.
  destruct (decide (chunks = [])) as [->|Hne]; [by eexists|].
  rewrite add_document_chunks_unfold by done. unfold collection_add.
  rewrite bool_decide_true; cbn [negb].
  2:{ by rewrite !length_fmap, length_seq. }
  rewrite bool_decide_true by done. cbn [negb].
  assert (forallb validate_metadata (prepare_metadata <$> chunks) = true) as ->.
  { apply forallb_forall. intros md (c & -> & Hc)%list_elem_of_In%list_elem_of_fmap.
    by eapply Forall_forall in Hvalid. }
  cbn [negb]. by eexists.
Qed.

End Adding.

(** *** What is stored, and what deletion leaves *)

(** C3, as the code has it. [add_document_chunks] raises no error of its
    own: it returns the identifiers drawn whenever they differ from one
    another, the provider embeds every content and the index accepts the
    metadata rebuilt for each chunk. When it returns, each chunk's content
    is stored unchanged, under the identifier returned at the chunk's
    position, with the rebuilt metadata: [filename], [file_path],
    [file_extension] and [chunk_type] from the chunk's metadata ([''] and
    ['text'] when absent), [page_number] and [chunk_index] from the chunk's
    own fields, and no other key. *)
Theorem stored_record_of_chunk {Embedding}
    (embed_documents : list str -> list Embedding) (uuid4 : nat -> str)
    (validate_metadata : gmap str pyval -> bool)
    (st : KnowledgeStore Embedding) (chunks : list DocumentChunk) :
  (NoDup (uuid4 <$> seq (drawn st) (length chunks)) ->
   length (embed_documents (content <$> chunks)) = length chunks ->
   Forall (fun chunk => validate_metadata (prepare_metadata chunk) = true)
     chunks ->
   exists st',
     add_document_chunks embed_documents uuid4 validate_metadata st chunks
     = Ok (uuid4 <$> seq (drawn st) (length chunks), st'))
  /\ (forall ids st',
        add_document_chunks embed_documents uuid4 validate_metadata st chunks
        = Ok (ids, st') ->
        (forall id, id ∈ ids -> collection st !! id = None) ->
        forall i chunk, chunks !! i = Some chunk ->
        exists id record,
          ids !! i = Some id
          /\ collection st' !! id = Some record
          /\ r_document record = content chunk
          /\ forall key, r_metadata record !! key = stored_value chunk key).
Proof.
  split; [apply add_document_chunks_returns|].
  intros ids st' Hadd Hfresh i chunk Hi.
  destruct (add_document_chunks_persists _ _ _ _ _ _ _ Hadd Hfresh i chunk Hi)
    as (id & record & Hid & Hlook & Hdoc & Hmd).
  exists id, record. repeat split; try done.
  intros key. rewrite Hmd. apply prepare_metadata_lookup.
Qed.

Lemma stored_record_of_chunk_witness :
  (exists st',
     add_document_chunks Doubles.embed_unit Doubles.uuid_seq
       Doubles.scalars_only Doubles.empty_store Doubles.library_chunks
     = Ok ([Doubles.uuid_seq 0; Doubles.uuid_seq 1; Doubles.uuid_seq 2], st'))
  /\ exists id record,
       [Doubles.uuid_seq 0; Doubles.uuid_seq 1; Doubles.uuid_seq 2] !! 0%nat
       = Some id
       /\ collection Doubles.library !! id = Some record
       /\ r_document record = str_of "alpha"
       /\ forall key,
            r_metadata record !! key
            = stored_value
                (Doubles.chunk_of (str_of "alpha")
                   {[FILENAME := VStr (str_of "a.pdf");
                     str_of "num_pages" := VInt 2]}
                   (Some 1) (Some 0)) key.
Proof.
  destruct (stored_record_of_chunk Doubles.embed_unit Doubles.uuid_seq
              Doubles.scalars_only Doubles.empty_store Doubles.library_chunks)
    as [Hreturns Hstored].
  split.
  - apply Hreturns.
    + apply (bool_decide_unpack _). by vm_compute.
    + reflexivity.
    + apply (bool_decide_unpack _). by vm_compute.
  - refine (Hstored
              [Doubles.uuid_seq 0; Doubles.uuid_seq 1; Doubles.uuid_seq 2]
              Doubles.library _ _ 0%nat
              (Doubles.chunk_of (str_of "alpha")
                 {[FILENAME := VStr (str_of "a.pdf");
                   str_of "num_pages" := VInt 2]}
                 (Some 1) (Some 0)) _).
    + vm_compute. reflexivity.
    + intros id _. apply lookup_empty.
    + reflexivity.
Defined.

(** C3 as stated fails: a chunk whose metadata holds a list is stored
    without any error, and what is stored is not the chunk's metadata. *)
Lemma stored_metadata_not_verbatim :
  is_scalar (VList [str_of "draft"]) = false
  /\ metadata Doubles.tagged_chunk !! str_of "tags"
     = Some (VList [str_of "draft"])
  /\ exists id st' record,
       add_document_chunks Doubles.embed_unit Doubles.uuid_seq
         Doubles.scalars_only Doubles.empty_store [Doubles.tagged_chunk]
       = Ok ([id], st')
       /\ collection st' !! id = Some record
       /\ r_metadata record <> metadata Doubles.tagged_chunk.
Proof.
  split; [reflexivity|]. split; [by vm_compute|].
  eexists _, _, _. split; [vm_compute; reflexivity|].
  split; [vm_compute; reflexivity|].
  intros Heq. apply (f_equal (.!! str_of "tags")) in Heq.
  by vm_compute in Heq.
Qed.

(** C4, as the code has it: every record stored by a successful
    [add_document_chunks] has a [filename], which is the one of the chunk's
    metadata, or the empty string when that has none. *)
Theorem persisted_filename {Embedding}
    (embed_documents : list str -> list Embedding) (uuid4 : nat -> str)
    (validate_metadata : gmap str pyval -> bool)
    (st : KnowledgeStore Embedding) chunks ids st' :
  add_document_chunks embed_documents uuid4 validate_metadata st chunks
  = Ok (ids, st') ->
  (forall id, id ∈ ids -> collection st !! id = None) ->
  forall i chunk, chunks !! i = Some chunk ->
  exists id record,
    ids !! i = Some id
    /\ collection st' !! id = Some record
    /\ r_metadata record !! FILENAME
       = Some (default (VStr []) (metadata chunk !! FILENAME)).
Proof.
  intros Hadd Hfresh i chunk Hi.
  destruct (add_document_chunks_persists _ _ _ _ _ _ _ Hadd Hfresh i chunk Hi)
    as (id & record & Hid & Hlook & _ & Hmd).
  exists id, record. repeat split; try done.
  rewrite Hmd, prepare_metadata_lookup. unfold stored_value.
  rewrite decide_True; [done|]. by left.
Qed.

Lemma persisted_filename_witness :
  exists id record,
    [Doubles.uuid_seq 0; Doubles.uuid_seq 1; Doubles.uuid_seq 2] !! 2%nat
    = Some id
    /\ collection Doubles.library !! id = Some record
    /\ r_metadata record !! FILENAME
       = Some (default (VStr [])
                 (({[FILENAME := VStr (str_of "b.docx")]} : gmap str pyval)
                    !! FILENAME)).
Proof.
  refine (persisted_filename Doubles.embed_unit Doubles.uuid_seq
           Doubles.scalars_only Doubles.empty_store Doubles.library_chunks
           [Doubles.uuid_seq 0; Doubles.uuid_seq 1; Doubles.uuid_seq 2]
           Doubles.library _ _ 2%nat
           (Doubles.chunk_of (str_of "gamma")
              {[FILENAME := VStr (str_of "b.docx")]} None (Some 0)) _).
  - vm_compute. reflexivity.
  - intros id _. apply lookup_empty.
  - reflexivity.
Defined.

(** C4 as stated fails: a chunk whose metadata has no [filename] is stored
    with the empty string as its [filename]. *)
Lemma persisted_filename_may_be_empty :
  metadata Doubles.bare_chunk !! FILENAME = None
  /\ exists id st' record,
       add_document_chunks Doubles.embed_unit Doubles.uuid_seq
         Doubles.scalars_only Doubles.empty_store [Doubles.bare_chunk]
       = Ok ([id], st')
       /\ collection st' !! id = Some record
       /\ r_metadata record !! FILENAME = Some (VStr []).
Proof.
  split; [reflexivity|].
  eexists _, _, _. split; [vm_compute; reflexivity|].
  split; vm_compute; reflexivity.
Qed.

(** C8: [delete_document] removes the records whose metadata [filename] is
    the argument and no other record; the count it returns is the number
    of records removed, and is 0, with the store unchanged, when no record
    matches; afterwards [get_all_documents] does not list the filename,
    and it still returns if it returned before. *)
Theorem delete_document_complete {Embedding}
    (st : KnowledgeStore Embedding) (filename : str) :
  let count := fst (delete_document st filename) in
  let st' := snd (delete_document st filename) in
  (forall id record,
     collection st' !! id = Some record
     <-> collection st !! id = Some record /\ ¬ of_document filename record)
  /\ count = Z.of_nat (size (collection st)) - Z.of_nat (size (collection st'))
  /\ ((forall id record,
         collection st !! id = Some record -> ¬ of_document filename record) ->
      count = 0 /\ st' = st)
  /\ (forall documents,
        get_all_documents st' = Ok documents -> VStr filename ∉ documents)
  /\ (is_Ok (get_all_documents st) -> is_Ok (get_all_documents st')).
Proof.
  intros count st'. unfold count, st'. clear count st'.
  rewrite delete_document_spec. cbn [fst snd].
  set (kept := {| collection := filter _ (collection st); drawn := _ |}).
  assert (Hkept : forall id record,
            collection kept !! id = Some record
            <-> collection st !! id = Some record
                /\ ¬ of_document filename record).
  { intros id record. unfold kept. cbn [collection].
    by rewrite map_lookup_filter_Some. }
  assert (Hsub : forall v, stored_filename kept v -> stored_filename st v).
  { intros v (id & record & [Hlook _]%Hkept & Hv). by exists id, record. }
  split; [exact Hkept|]. split; [|split; [|split]].
  - pose proof (map_filter_union_complement
                  (fun kv => of_document filename kv.2) (collection st)) as Hu.
    pose proof (map_size_disj_union _ _
                  (map_disjoint_filter_complement
                     (fun kv => of_document filename kv.2) (collection st)))
      as Hsize.
    cbv beta in Hu, Hsize. rewrite Hu in Hsize.
    unfold kept. cbn [collection]. lia.
  - intros Hnone.
    assert (filter (fun kv => of_document filename kv.2) (collection st) = ∅)
      as ->.
    { apply map_empty. intros id. apply map_lookup_filter_None.
      destruct (collection st !! id) as [record|] eqn:Hlook; [|by left].
      right. intros record' [= <-]. by apply (Hnone id). }
    split; [by rewrite map_size_empty|].
    unfold kept. destruct st as [coll n]. cbn [collection drawn] in *.
    f_equal. apply map_filter_id. intros id record Hlook. by apply (Hnone id).
  - intros documents Hlist Hin.
    apply (get_all_documents_elem _ _ Hlist) in Hin
      as (id & record & [_ Hnot]%Hkept & Hv).
    by apply Hnot.
  - rewrite !get_all_documents_is_Ok. unfold comparable.
    intros [Hhash Hsort]. split; [by intros v ?%Hsub%Hhash|].
    destruct Hsort as [Huniq|[H|[H|H]]].
    + left. intros v w ?%Hsub ?%Hsub. by apply Huniq.
    + right; left. intros v ?%Hsub. by apply H.
    + right; right; left. intros v ?%Hsub. by apply H.
    + right; right; right. intros v ?%Hsub. by apply H.
Qed.

Lemma delete_document_complete_witness :
  fst (delete_document Doubles.library (str_of "a.pdf")) = 2
  /\ fst (delete_document Doubles.library (str_of "c.txt")) = 0
  /\ snd (delete_document Doubles.library (str_of "c.txt")) = Doubles.library
  /\ (VStr (str_of "a.pdf") ∉ [VStr (str_of "b.docx")])
  /\ is_Ok (get_all_documents
              (snd (delete_document Doubles.library (str_of "a.pdf")))).
Proof.
  destruct (delete_document_complete Doubles.library (str_of "a.pdf"))
    as (_ & Hcount & _ & Hlist & Hok).
  destruct (delete_document_complete Doubles.library (str_of "c.txt"))
    as (_ & _ & Hnone & _ & _).
  destruct Hnone as [Hzero Hsame].
  { apply (bool_decide_unpack
             (map_Forall (fun _ record => ¬ of_document (str_of "c.txt") record)
                (collection Doubles.library))).
    vm_compute. exact I. }
  split; [rewrite Hcount; vm_compute; reflexivity|].
  split; [exact Hzero|]. split; [exact Hsame|].
  split; [apply Hlist|apply Hok].
  - vm_compute. reflexivity.
  - vm_compute. exact I.
Defined.

End StorageProofs.

(* ===================================================================== *)
(** ** The question-answering layer *)
(* ===================================================================== *)

Module QAProofs.

Import Storage QA PyFacts.

(** *** Lines *)

Lemma drop_while_subseteq {A} (p : A -> bool) (s : list A) x :
  x ∈ drop_while p s -> x ∈ s.
Proof.
  induction s as [|y s IH]; simpl; [done|].
  destruct (p y); [|done]. intros ?%IH. by right.
Qed.

Lemma strip_subseteq (s : str) x : x ∈ strip s -> x ∈ s.
Proof.
  unfold strip, rstrip, lstrip. rewrite elem_of_reverse.
  intros Hx%drop_while_subseteq. rewrite elem_of_reverse in Hx.
  by apply drop_while_subseteq in Hx.
Qed.

Lemma split_cons c x s :
  split c (x :: s)
  = if N.eqb x c then [] :: split c s
    else (x :: default [] (head (split c s))) :: tail (split c s).
Proof. simpl. destruct (N.eqb x c); [done|]. by destruct (split c s). Qed.

(** No line of a split text holds the separator. *)
Lemma split_lines_clean c s : Forall (fun line => c ∉ line) (split c s).
Proof.
  induction s as [|x s IH]; [repeat constructor; by intros ?%elem_of_nil|].
  rewrite split_cons. destruct (N.eqb_spec x c) as [->|Hne].
  - constructor; [by intros ?%elem_of_nil|done].
  - destruct (split c s) as [|cur rest]; simpl.
    + repeat constructor. by intros [->|?%elem_of_nil]%elem_of_cons.
    + apply Forall_cons in IH as [Hcur Hrest]. constructor; [|done].
      by intros [->|?]%elem_of_cons.
Qed.

Lemma first_line_cons x s :
  first_line (x :: s) = if N.eqb x NEWLINE then [] else x :: first_line s.
Proof.
  unfold first_line. rewrite split_cons. by destruct (N.eqb x NEWLINE).
Qed.

Lemma first_line_clean (line : str) : NEWLINE ∉ line -> first_line line = line.
Proof.
  induction line as [|x line IH]; [done|]. intros Hx.
  rewrite first_line_cons. destruct (N.eqb_spec x NEWLINE) as [->|_].
  - destruct Hx. by left.
  - f_equal. apply IH. intros ?. apply Hx. by right.
Qed.

Lemma first_line_app (line rest : str) :
  first_line (line ++ NEWLINE :: rest) = first_line line.
Proof.
  induction line as [|x line IH]; simpl.
  - by rewrite first_line_cons.
  - rewrite !first_line_cons. by rewrite IH.
Qed.

(** *** Test cases *)

Lemma test_step_ok state line :
  NEWLINE ∉ line -> test_state_ok state -> test_state_ok (test_step state line).
Proof.
  intros Hclean [Hdone Hcur]. destruct state as [test_cases current_test].
  cbn [fst snd] in *. unfold test_step.
  assert (Hline : first_line (strip line) = strip line).
  { apply first_line_clean. by intros ?%strip_subseteq. }
  fold (has_marker (strip line)).
  destruct (has_marker (strip line)) eqn:Hmark.
  - split; cbn [fst snd].
    + case_bool_decide as Hempty; [|done].
      apply Forall_app. split; [done|]. repeat constructor.
      destruct Hcur as [->|(full & -> & Hfull)]; [done|].
      exists full. by rewrite lookup_singleton_eq.
    + right. exists (strip line). by rewrite Hline.
  - case_bool_decide as Hempty; [|by split; [|left; destruct Hcur as [?|(?&?&?)]; [|by destruct Hempty]]].
    destruct Hcur as [->|(full & -> & Hfull)]; [done|].
    split; cbn [fst snd]; [done|]. right.
    rewrite lookup_singleton_eq. cbn [default].
    eexists. rewrite insert_singleton_eq. split; [done|].
    cbn [app]. by rewrite first_line_app.
Qed.

Lemma test_loop_ok lines state :
  Forall (fun line => NEWLINE ∉ line) lines ->
  test_state_ok state -> test_state_ok (foldl test_step state lines).
Proof.
  intros Hclean. revert state.
  induction Hclean as [|line lines Hline _ IH]; intros state Hstate; simpl;
    [done|].
  by apply IH, test_step_ok.
Qed.

(** The lines before the first marker line leave the loop in its initial
    state. *)
Lemma test_loop_skip lines :
  foldl test_step ([], ∅) lines
  = foldl test_step ([], ∅)
      (drop_while (fun line => negb (has_marker (strip line))) lines).
Proof.
  induction lines as [|line lines IH]; simpl; [done|].
  destruct (has_marker (strip line)) eqn:Hmark; simpl; [done|].
  rewrite <- IH. f_equal. unfold test_step.
  fold (has_marker (strip line)). rewrite Hmark.
  by rewrite bool_decide_false by (by intros []).
Qed.

Lemma parse_test_cases_ok text :
  Forall opens_with_marker (parse_test_cases text).
Proof.
  unfold parse_test_cases, parse_test_lines.
  destruct (test_loop_ok (split NEWLINE text) ([], ∅)) as [Hdone Hcur].
  { apply split_lines_clean. }
  { split; [constructor|by left]. }
  destruct (foldl test_step _ _) as [test_cases current_test].
  cbn [fst snd] in *. case_bool_decide as Hempty; [|done].
  apply Forall_app. split; [done|]. repeat constructor.
  destruct Hcur as [->|(full & -> & Hfull)]; [done|].
  exists full. by rewrite lookup_singleton_eq.
Qed.

(** [generate_tests] returns no record without a model call when nothing
    is retrieved, and otherwise parses the response to its one prompt. *)
Lemma generate_tests_run {Distance}
    (search : str -> Z -> option (gmap str pyval) -> list (SearchResult Distance))
    (llm : str -> str) document_name test_type log :
  generate_tests search llm document_name test_type log = ([], log)
  \/ exists prompt,
       generate_tests search llm document_name test_type log
       = (parse_test_cases (llm prompt), log ++ [prompt]).
Proof.
  unfold generate_tests.
  destruct (if truthy document_name then _ else _) as [|r rs]; [by left|].
  right. by eexists.
Qed.

(** C10: every record of [parse_test_cases], and so of [generate_tests],
    has a [full_text] whose first line holds [Test ID] or [Test Case]; and
    the records are those of the lines from the first marker line on: the
    lines before it take no part in them. *)
Theorem test_records_open_with_marker (text : str) :
  Forall opens_with_marker (parse_test_cases text)
  /\ parse_test_cases text
     = parse_test_lines
         (drop_while (fun line => negb (has_marker (strip line)))
            (split NEWLINE text))
  /\ forall Distance
       (search : str -> Z -> option (gmap str pyval)
                 -> list (SearchResult Distance))
       (llm : str -> str) document_name test_type log,
       Forall opens_with_marker
         (fst (generate_tests search llm document_name test_type log)).
Proof.
  split; [apply parse_test_cases_ok|]. split.
  - unfold parse_test_cases, parse_test_lines. by rewrite test_loop_skip.
  - intros Distance search llm document_name test_type log.
    destruct (generate_tests_run search llm document_name test_type log)
      as [->|[prompt ->]]; cbn [fst]; [constructor|].
    apply parse_test_cases_ok.
Qed.

(** *** Insights *)

Lemma startswith_char (c d : char) (line : str) :
  startswith (c :: line) [d] = N.eqb d c.
Proof. simpl. destruct line; apply andb_true_r. Qed.

(** One turn of the loop appends the insight of the line, if it has
    one. *)
Lemma insight_step_spec isdigit insights line :
  insight_step isdigit insights line
  = insights ++ option_list (insight_of isdigit line).
Proof.
  unfold insight_step, insight_of, marked. cbv zeta.
  destruct (strip line) as [|c trimmed]; [symmetry; apply app_nil_r|].
  change (str_of "-") with [45%N]. rewrite !startswith_char.
  rewrite (N.eqb_sym 45 c), (N.eqb_sym BULLET c).
  destruct (isdigit c || (c =? 45)%N || (c =? BULLET)%N);
    [|symmetry; apply app_nil_r].
  destruct (strip _); [symmetry; apply app_nil_r|done].
Qed.

Lemma insight_loop_spec isdigit insights lines :
  foldl (insight_step isdigit) insights lines
  = insights ++ omap (insight_of isdigit) lines.
Proof.
  revert insights. induction lines as [|line lines IH]; intros insights; simpl.
  - by rewrite app_nil_r.
  - rewrite IH, insight_step_spec, <- app_assoc. f_equal.
    by destruct (insight_of isdigit line).
Qed.

(** [extract_insights] returns nothing without a model call when nothing
    is retrieved, and otherwise parses the response to its one prompt. *)
Lemma extract_insights_run {Distance}
    (search : str -> Z -> option (gmap str pyval) -> list (SearchResult Distance))
    (llm : str -> str) isdigit document_name max_insights log :
  extract_insights search llm isdigit document_name max_insights log
  = ([], log)
  \/ exists prompt,
       extract_insights search llm isdigit document_name max_insights log
       = (parse_insights isdigit (llm prompt) max_insights, log ++ [prompt]).
Proof.
  unfold extract_insights.
  destruct (if truthy document_name then _ else _) as [|r rs]; [by left|].
  right. by eexists.
Qed.

(** C9, as the code has it: the parser returns [insights[:max_insights]]
    of the list that holds, in line order, the insight of each line that
    has one (the line trimmed, beginning with a digit, ['-'] or ['•'], its
    leading marker characters removed, the rest trimmed and not empty); for
    [max_insights >= 0] that is its first [max_insights] elements.
    [extract_insights] returns this for the response, or nothing when
    nothing was retrieved. *)
Theorem insights_per_line (isdigit : char -> bool) (text : str)
    (max_insights : Z) :
  parse_insights isdigit text max_insights
  = slice_to (omap (insight_of isdigit) (split NEWLINE text)) max_insights
  /\ (0 <= max_insights ->
      parse_insights isdigit text max_insights
      = take (Z.to_nat max_insights)
          (omap (insight_of isdigit) (split NEWLINE text))
      /\ len (parse_insights isdigit text max_insights) <= max_insights)
  /\ forall Distance
       (search : str -> Z -> option (gmap str pyval)
                 -> list (SearchResult Distance))
       (llm : str -> str) document_name log,
       let insights :=
         fst (extract_insights search llm isdigit document_name
                max_insights log) in
       insights = []
       \/ exists response,
            insights = parse_insights isdigit response max_insights.
Proof.
  assert (Hparse : parse_insights isdigit text max_insights
                   = slice_to (omap (insight_of isdigit) (split NEWLINE text))
                       max_insights).
  { unfold parse_insights. by rewrite insight_loop_spec. }
  split; [done|]. split.
  - intros Hmax. rewrite Hparse, slice_to_nonneg by done.
    split; [done|]. unfold len. rewrite length_take. lia.
  - intros Distance search llm document_name log insights. unfold insights.
    destruct (extract_insights_run search llm isdigit document_name
                max_insights log) as [->|[prompt ->]]; cbn [fst];
      [by left|right; by eexists].
Qed.

Lemma insights_per_line_witness :
  parse_insights Doubles.isdigit_ascii
    (str_of "Key points:
1. First thing
 - second
-
3) 2 apples
plain") 2
  = take 2
      (omap (insight_of Doubles.isdigit_ascii)
         (split NEWLINE (str_of "Key points:
1. First thing
 - second
-
3) 2 apples
plain")))
  /\ len (parse_insights Doubles.isdigit_ascii
            (str_of "Key points:
1. First thing
 - second
-
3) 2 apples
plain") 2) <= 2.
Proof.
  destruct (insights_per_line Doubles.isdigit_ascii
              (str_of "Key points:
1. First thing
 - second
-
3) 2 apples
plain") 2) as (_ & Hcut & _).
  apply Hcut. lia.
Defined.

(** C9 as stated fails: the line [-] begins with a marker and gives no
    insight, and the line [ - kept] begins with a space and gives one. *)
Lemma insights_not_the_marked_lines :
  parse_insights Doubles.isdigit_ascii (str_of "-
 - kept
1. one") 10
  = [str_of "kept"; str_of "one"]
  /\ insights_as_stated Doubles.isdigit_ascii (str_of "-
 - kept
1. one") 10
     = [[]; str_of "one"].
Proof. by vm_compute. Qed.

(** *** Answers *)

Lemma excerpt_cases (content : str) :
  (len content <= 200 /\ excerpt content = content)
  \/ (200 < len content
      /\ excerpt content = take 200 content ++ str_of "..."
      /\ len (excerpt content) = 203).
Proof.
  unfold excerpt. destruct (Z.gtb_spec (len content) 200) as [Hlong|Hshort].
  - right. split; [done|]. rewrite slice_to_nonneg by done.
    split; [done|]. unfold len in *.
    rewrite length_app, length_take. change (length (str_of "...")) with 3%nat.
    lia.
  - left. by split.
Qed.

(** What [answer_question] returns when something was retrieved: one
    model call; the excerpts are those of the results, in their order. *)
Lemma answer_question_run {Distance}
    (search : str -> Z -> option (gmap str pyval) -> list (SearchResult Distance))
    (llm : str -> str) question n_results log :
  search question n_results None <> [] ->
  exists prompt sources,
    answer_question search llm question n_results log
    = ({| answer := llm prompt;
          sources := sources;
          context_used :=
            (fun r => excerpt (sr_content r))
              <$> search question n_results None |},
       log ++ [prompt]).
Proof.
  intros Hresults. unfold answer_question.
  destruct (search question n_results None) as [|r rs]; [done|].
  destruct (foldl _ _ _) as [context_parts sources]. by eexists _, _.
Qed.

(** C5, as the code has it: the entries of [context_used] follow the
    results in order; a content of at most 200 characters is shown whole,
    a longer one as its first 200 characters followed by ["..."], 203
    characters in all. *)
Theorem context_used_excerpts {Distance}
    (search : str -> Z -> option (gmap str pyval) -> list (SearchResult Distance))
    (llm : str -> str) (question : str) (n_results : Z) (log : list str) :
  Forall2
    (fun result shown =>
       (len (sr_content result) <= 200 /\ shown = sr_content result)
       \/ (200 < len (sr_content result)
           /\ shown = take 200 (sr_content result) ++ str_of "..."
           /\ len shown = 203))
    (search question n_results None)
    (context_used (fst (answer_question search llm question n_results log))).
Proof.
  destruct (decide (length (search question n_results None) = 0%nat))
    as [Hnone|Hsome].
  - apply nil_length_inv in Hnone. unfold answer_question.
    rewrite Hnone. constructor.
  - destruct (answer_question_run search llm question n_results log)
      as (prompt & sources & ->); [intros Heq; by rewrite Heq in Hsome|].
    cbn [fst context_used]. apply Forall2_fmap_r, Forall_Forall2_diag.
    apply Forall_forall. intros r _. unfold compose. cbv beta.
    destruct (excerpt_cases (sr_content r)) as [[? ->]|(? & -> & Hlen)];
      [by left|by right].
Qed.

(** C5 as stated fails: a content of 201 characters is shown as 203
    characters. *)
Lemma context_used_over_200 :
  context_used
    (fst (run (answer_question
                 (Doubles.search_fixed
                    [Doubles.hit (replicate 201 97%N) "f.pdf"])
                 (Doubles.llm_fixed (str_of "ok")) (str_of "q") 5)))
  = [replicate 200 97%N ++ str_of "..."]
  /\ len (replicate 200 97%N ++ str_of "...") = 203.
Proof. by vm_compute. Qed.

(** C6: when the search returns nothing, [answer_question] returns the
    fixed answer with no sources and no context, and the log of prompts
    sent to the completion capability is as it was. *)
Theorem answer_question_without_results {Distance}
    (search : str -> Z -> option (gmap str pyval) -> list (SearchResult Distance))
    (llm : str -> str) (question : str) (n_results : Z) (log : list str) :
  search question n_results None = [] ->
  answer_question search llm question n_results log
  = ({| answer := NO_INFORMATION; sources := []; context_used := [] |}, log).
Proof. intros Hnone. unfold answer_question. by rewrite Hnone. Qed.

Lemma answer_question_without_results_witness :
  run (answer_question (Doubles.search_fixed [])
         (Doubles.llm_fixed (str_of "unused")) (str_of "What is the process?") 5)
  = ({| answer := NO_INFORMATION; sources := []; context_used := [] |}, []).
Proof.
  apply (answer_question_without_results (Doubles.search_fixed [])
           (Doubles.llm_fixed (str_of "unused"))
           (str_of "What is the process?") 5 []).
  reflexivity.
Defined.

End QAProofs.

(* ===================================================================== *)
(** ** The splitters, window by window, and the [process] methods *)
(* ===================================================================== *)

Module ExtractionProofs.

Import Processors Extraction PyFacts.

Section Windows.

Variables (text : str) (chunk_size chunk_overlap : Z).

Local Abbreviation step := (chunk_size - chunk_overlap).
Local Abbreviation total := (window_count (len text) step).

(** A window starts inside the text exactly when its index is below the
    count. *)
Lemma window_starts_inside (k : nat) :
  0 < step -> Z.of_nat k * step < len text <-> (k < total)%nat.
Proof.
  intros Hstep. unfold window_count.
  pose proof (len_nonneg text) as Hn.
  pose proof (Z.div_mod (len text + step - 1) step ltac:(lia)) as Hdiv.
  pose proof (Z.mod_pos_bound (len text + step - 1) step Hstep) as Hmod.
  set (q := (len text + step - 1) `div` step) in *.
  set (r := (len text + step - 1) `mod` step) in *.
  assert (0 <= q) by (apply Z.div_pos; lia).
  split; intros H'; [|apply Nat2Z.inj_lt in H'; rewrite Z2Nat.id in H' by lia];
    [apply Nat2Z.inj_lt; rewrite Z2Nat.id by lia|]; nia.
Qed.

(** From its [k]-th turn on, the loop appends the windows [k], [k+1], ...
    up to the count, given fuel for each of them. *)
Lemma split_loop_windows fuel (k : nat) chunks :
  0 < step ->
  (total - k <= fuel)%nat ->
  split_loop fuel text chunk_size chunk_overlap (Z.of_nat k * step) chunks
  = Some (chunks ++ (window text chunk_size step <$> seq k (total - k))).
Proof.
  intros Hstep. revert k chunks.
  induction fuel as [|fuel IH]; intros k chunks Hfuel; simpl;
    destruct (Z.ltb_spec (Z.of_nat k * step) (len text)) as [Hin|Hout].
  - apply window_starts_inside in Hin; [lia|done].
  - assert (¬ (k < total)%nat) by (rewrite <- window_starts_inside; lia).
    replace (total - k)%nat with 0%nat by lia. by rewrite app_nil_r.
  - pose proof Hin as Hk. apply window_starts_inside in Hk; [|done].
    replace (Z.of_nat k * step + chunk_size - chunk_overlap)
      with (Z.of_nat (S k) * step) by (rewrite Nat2Z.inj_succ; ring).
    rewrite IH by lia. rewrite <- app_assoc. do 2 f_equal.
    replace (total - k)%nat with (S (total - S k)) by lia. done.
  - assert (¬ (k < total)%nat) by (rewrite <- window_starts_inside; lia).
    replace (total - k)%nat with 0%nat by lia. by rewrite app_nil_r.
Qed.

(** A window that starts inside the text is not empty and not longer than
    the chunk size. *)
Lemma window_length (k : nat) :
  0 < chunk_size -> 0 < step -> (k < total)%nat ->
  0 < len (window text chunk_size step k) <= chunk_size.
Proof.
  intros Hcs Hstep Hk. apply window_starts_inside in Hk; [|done].
  assert (0 <= Z.of_nat k * step) by nia.
  unfold window. rewrite slice_nonneg by lia. unfold len in *.
  rewrite length_take, length_drop. lia.
Qed.

End Windows.

Lemma effective_step_pos cfg :
  0 < CHUNK_SIZE cfg -> 0 < CHUNK_SIZE cfg - effective_overlap cfg.
Proof.
  intros Hcs. unfold effective_overlap.
  destruct (Z.geb_spec (CHUNK_OVERLAP cfg) (CHUNK_SIZE cfg)); [|lia].
  pose proof (Z.div_lt (CHUNK_SIZE cfg) 2 Hcs ltac:(lia)). lia.
Qed.

Lemma windows_of_spec text chunk_size step :
  0 < chunk_size -> 0 < step ->
  Forall (fun chunk => len chunk <= chunk_size /\ (text <> [] -> chunk <> []))
    (windows_of text chunk_size step)
  /\ windows_of text chunk_size step <> [].
Proof.
  intros Hcs Hstep. unfold windows_of.
  destruct (Z.leb_spec (len text) chunk_size) as [Hshort|Hlong].
  - split; [|done]. by repeat constructor.
  - assert (Hfirst : (0 < window_count (len text) (chunk_size - (chunk_size - step)))%nat).
    { apply window_starts_inside; lia. }
    replace (chunk_size - (chunk_size - step)) with step in Hfirst by lia.
    split.
    + apply Forall_fmap, Forall_forall. intros k [_ Hk]%elem_of_seq. simpl.
      pose proof (window_length text chunk_size (chunk_size - step) k) as Hw.
      replace (chunk_size - (chunk_size - step)) with step in Hw by lia.
      specialize (Hw Hcs Hstep ltac:(lia)).
      split; [lia|]. intros _ Hnil. rewrite Hnil in Hw.
      unfold len in Hw. simpl in Hw. lia.
    + destruct (window_count _ _); [lia|done].
Qed.

(** X2: with a positive chunk size, the chunks are the windows
    [i * step, i * step + chunk_size) of the text, for each [i] whose window
    starts inside it, where [step] is the chunk size less the overlap in
    force: as many chunks as [len(text) / step] rounded up. The DOCX
    splitter returns them for every overlap, the PDF splitter for an
    overlap below the chunk size. No chunk is longer than the chunk size,
    and none is empty unless the text is. *)
Theorem split_text_windows cfg text fuel :
  0 < CHUNK_SIZE cfg ->
  (window_count (len text) (CHUNK_SIZE cfg - effective_overlap cfg) <= fuel)%nat ->
  let chunks :=
    windows_of text (CHUNK_SIZE cfg) (CHUNK_SIZE cfg - effective_overlap cfg) in
  Processors.DOCXProcessor._split_text fuel cfg text = Some chunks
  /\ (CHUNK_OVERLAP cfg < CHUNK_SIZE cfg ->
      Processors.PDFProcessor._split_text fuel cfg text = Some chunks)
  /\ Forall (fun chunk =>
               len chunk <= CHUNK_SIZE cfg /\ (text <> [] -> chunk <> []))
       chunks
  /\ chunks <> [].
Proof.
  intros Hcs Hfuel chunks. pose proof (effective_step_pos cfg Hcs) as Hstep.
  assert (Hdocx : Processors.DOCXProcessor._split_text fuel cfg text
                  = Some chunks).
  { unfold Processors.DOCXProcessor._split_text, chunks, windows_of.
    fold (effective_overlap cfg).
    destruct (len text <=? CHUNK_SIZE cfg); [done|].
    pose proof (split_loop_windows text (CHUNK_SIZE cfg)
                  (effective_overlap cfg) fuel 0 []) as Hrun.
    rewrite Nat.sub_0_r in Hrun. by apply Hrun. }
  split; [done|]. split; [|by apply windows_of_spec].
  intros Hov. rewrite <- Hdocx.
  unfold Processors.PDFProcessor._split_text,
    Processors.DOCXProcessor._split_text.
  destruct (Z.geb_spec (CHUNK_OVERLAP cfg) (CHUNK_SIZE cfg)); [lia|done].
Qed.

Lemma split_text_windows_witness :
  Processors.DOCXProcessor._split_text 5
    {| CHUNK_SIZE := 4; CHUNK_OVERLAP := 2 |} (str_of "abcdefghij")
  = Some (windows_of (str_of "abcdefghij") 4 2)
  /\ windows_of (str_of "abcdefghij") 4 2
     = [str_of "abcd"; str_of "cdef"; str_of "efgh"; str_of "ghij";
        str_of "ij"].
Proof.
  split; [|by vm_compute].
  destruct (split_text_windows {| CHUNK_SIZE := 4; CHUNK_OVERLAP := 2 |}
              (str_of "abcdefghij") 5) as (Hdocx & _);
    [simpl; lia|vm_compute; lia|].
  exact Hdocx.
Defined.

(** *** [process] *)

(** Two different literal keys are not equal. *)
Local Ltac literal_clash :=
  match goal with
  | H : str_of _ = str_of _ |- _ => by vm_compute in H
  | H : str_of _ <> str_of _ |- _ => by destruct H
  end.

Local Ltac lookup_literal :=
  rewrite ?lookup_insert, ?lookup_empty;
  repeat case_decide; subst; try done; try literal_clash.

Lemma extract_metadata_lookup file_path key :
  extract_metadata file_path !! key
  = if decide (key = str_of "filename") then Some (VStr (name file_path))
    else if decide (key = str_of "file_path")
    then Some (VStr (path_str file_path))
    else if decide (key = str_of "file_extension")
    then Some (VStr (suffix file_path))
    else None.
Proof. unfold extract_metadata. lookup_literal. Qed.

(** X3: when the reader returns a document, and with a positive chunk
    size, [DOCXProcessor.process] returns at least one chunk (a document
    without text gives one empty chunk); the contents are the windows of
    the joined text, the chunk at position [i] has [chunk_index] [i] and no
    page number, and its metadata names the file, has [chunk_type] ['text']
    and never an [image_count], whatever the number of inline shapes. *)
Theorem docx_process_chunks fuel Document cfg file_path doc :
  0 < CHUNK_SIZE cfg ->
  Document file_path = Ok doc ->
  (window_count (len (join [NEWLINE] (DOCXProcessor.text_content doc)))
     (CHUNK_SIZE cfg - effective_overlap cfg) <= fuel)%nat ->
  exists chunks,
    DOCXProcessor.process fuel Document cfg file_path = Some (Ok chunks)
    /\ chunks <> []
    /\ content <$> chunks
       = windows_of (join [NEWLINE] (DOCXProcessor.text_content doc))
           (CHUNK_SIZE cfg) (CHUNK_SIZE cfg - effective_overlap cfg)
    /\ forall i chunk,
         chunks !! i = Some chunk ->
         chunk_index chunk = Some (Z.of_nat i)
         /\ page_number chunk = None
         /\ metadata chunk !! str_of "filename"
            = Some (VStr (name file_path))
         /\ metadata chunk !! str_of "chunk_type"
            = Some (VStr (str_of "text"))
         /\ metadata chunk !! str_of "image_count" = None.
Proof.
  intros Hcs Hread Hfuel.
  destruct (split_text_windows cfg _ fuel Hcs Hfuel)
    as (Hsplit & _ & _ & Hne).
  unfold DOCXProcessor.process. rewrite Hread, Hsplit.
  eexists. split; [done|]. split; [|split].
  - intros Hnil. apply Hne. apply (f_equal length) in Hnil.
    rewrite length_imap in Hnil. by destruct (windows_of _ _ _).
  - rewrite fmap_imap. unfold compose. simpl.
    by rewrite (imap_const id), list_fmap_id.
  - intros i chunk Hi. rewrite list_lookup_imap in Hi.
    destruct (windows_of _ _ _ !! i) as [piece|]; [|done].
    injection Hi as <-. unfold DOCXProcessor.chunk_at. simpl.
    repeat split;
      rewrite !lookup_insert_ne by (by vm_compute);
      rewrite ?lookup_insert_eq, ?extract_metadata_lookup; done.
Qed.

Lemma docx_process_chunks_witness :
  exists chunks,
    DOCXProcessor.process 6 Samples.read_report Samples.small_config
      (Doubles.path_of "report.docx") = Some (Ok chunks)
    /\ chunks <> []
    /\ content <$> chunks
       = windows_of
           (join [NEWLINE] (DOCXProcessor.text_content Samples.report)) 8 5
    /\ forall i chunk,
         chunks !! i = Some chunk ->
         chunk_index chunk = Some (Z.of_nat i)
         /\ page_number chunk = None
         /\ metadata chunk !! str_of "filename"
            = Some (VStr (str_of "report.docx"))
         /\ metadata chunk !! str_of "chunk_type"
            = Some (VStr (str_of "text"))
         /\ metadata chunk !! str_of "image_count" = None.
Proof.
  apply (docx_process_chunks 6 Samples.read_report Samples.small_config
           (Doubles.path_of "report.docx") Samples.report);
    [by vm_compute|reflexivity|vm_compute; lia].
Defined.

Lemma effective_overlap_below cfg :
  CHUNK_OVERLAP cfg < CHUNK_SIZE cfg -> effective_overlap cfg = CHUNK_OVERLAP cfg.
Proof.
  intros Hov. unfold effective_overlap.
  destruct (Z.geb_spec (CHUNK_OVERLAP cfg) (CHUNK_SIZE cfg)); [lia|done].
Qed.

(** The page loop returns the chunks of the pages, given fuel for the
    windows of each page. *)
Lemma page_chunks_spec fuel cfg file_metadata pages page_num :
  0 < CHUNK_SIZE cfg ->
  CHUNK_OVERLAP cfg < CHUNK_SIZE cfg ->
  Forall (fun text =>
            (window_count (len text) (CHUNK_SIZE cfg - CHUNK_OVERLAP cfg)
             <= fuel)%nat) pages ->
  PDFProcessor.page_chunks fuel cfg file_metadata pages page_num
  = Some (PDFProcessor.chunks_of_pages cfg file_metadata pages page_num).
Proof.
  intros Hcs Hov Hfuel. revert page_num.
  induction Hfuel as [|text pages Htext _ IH]; intros page_num; [done|].
  assert (Hrest : PDFProcessor.chunks_of_pages cfg file_metadata
                    (text :: pages) page_num
                  = (if decide (strip text <> []) then
                       imap (PDFProcessor.chunk_at file_metadata page_num)
                         (windows_of text (CHUNK_SIZE cfg)
                            (CHUNK_SIZE cfg - CHUNK_OVERLAP cfg))
                     else [])
                    ++ PDFProcessor.chunks_of_pages cfg file_metadata pages
                         (page_num + 1)).
  { unfold PDFProcessor.chunks_of_pages. rewrite imap_cons. simpl.
    rewrite Z.add_0_r. do 2 f_equal. apply imap_ext. intros k page _.
    simpl. by replace (page_num + 1 + Z.of_nat k)
             with (page_num + Z.of_nat (S k)) by lia. }
  rewrite Hrest. simpl. rewrite IH.
  destruct (decide (strip text <> [])); [|done].
  rewrite <- (effective_overlap_below cfg Hov) in Htext |- *.
  destruct (split_text_windows cfg text fuel Hcs Htext) as (_ & Hpdf & _).
  by rewrite (Hpdf Hov).
Qed.

Lemma strip_nil : strip [] = [].
Proof. done. Qed.

(** The chunks of the pages, one by one. *)
Lemma chunks_of_pages_elem cfg file_metadata pages page_num chunk :
  chunk ∈ PDFProcessor.chunks_of_pages cfg file_metadata pages page_num ->
  exists (k i : nat) text piece,
    pages !! k = Some text /\ strip text <> []
    /\ windows_of text (CHUNK_SIZE cfg) (CHUNK_SIZE cfg - CHUNK_OVERLAP cfg) !! i
       = Some piece
    /\ chunk = PDFProcessor.chunk_at file_metadata (page_num + Z.of_nat k) i
                 piece.
Proof.
  unfold PDFProcessor.chunks_of_pages.
  intros (l & Hin & Hl)%list_elem_of_join.
  apply elem_of_lookup_imap in Hl as (k & text & -> & Hk).
  destruct (decide (strip text <> [])); [|by apply elem_of_nil in Hin].
  apply elem_of_lookup_imap in Hin as (i & piece & -> & Hi).
  by exists k, i, text, piece.
Qed.

Lemma chunks_of_pages_NoDup cfg file_metadata pages page_num :
  NoDup ((fun chunk => (page_number chunk, chunk_index chunk))
           <$> PDFProcessor.chunks_of_pages cfg file_metadata pages page_num).
Proof.
  revert page_num. induction pages as [|text pages IH]; intros page_num.
  { constructor. }
  assert (Hrest : PDFProcessor.chunks_of_pages cfg file_metadata
                    (text :: pages) page_num
                  = (if decide (strip text <> []) then
                       imap (PDFProcessor.chunk_at file_metadata page_num)
                         (windows_of text (CHUNK_SIZE cfg)
                            (CHUNK_SIZE cfg - CHUNK_OVERLAP cfg))
                     else [])
                    ++ PDFProcessor.chunks_of_pages cfg file_metadata pages
                         (page_num + 1)).
  { unfold PDFProcessor.chunks_of_pages. rewrite imap_cons. simpl.
    rewrite Z.add_0_r. do 2 f_equal. apply imap_ext. intros k page _.
    simpl. by replace (page_num + 1 + Z.of_nat k)
             with (page_num + Z.of_nat (S k)) by lia. }
  rewrite Hrest, fmap_app. apply NoDup_app. split; [|split; [|apply IH]].
  - destruct (decide (strip text <> [])); [|constructor].
    rewrite fmap_imap. unfold compose. simpl.
    rewrite (imap_seq_0 _ (fun i => (Some page_num, Some (Z.of_nat i)))).
    apply NoDup_fmap_2_strong; [|apply NoDup_seq].
    intros i j _ _ [= Hij]. lia.
  - intros key Hhere Hlater.
    assert (key.1 = Some page_num) as Hpage.
    { destruct (decide (strip text <> [])); [|by apply elem_of_nil in Hhere].
      apply list_elem_of_fmap in Hhere as (chunk & -> & Hchunk).
      by apply elem_of_lookup_imap in Hchunk as (i & piece & -> & _). }
    apply list_elem_of_fmap in Hlater as (chunk & -> & Hchunk).
    apply chunks_of_pages_elem in Hchunk as (k & i & ? & piece & _ & _ & _ & ->).
    simpl in Hpage. injection Hpage as Hpage. lia.
Qed.

(** X4: when the reader returns the page texts, with a positive chunk size
    and an overlap below it, [PDFProcessor.process] returns, for each page
    that is not blank and in page order, the windows of the page's text.
    Every chunk has a page number between 1 and the number of pages, also
    in its metadata beside [num_pages] and the file's name, and a content
    that is not empty; no two chunks share page number and chunk index;
    a document whose pages are all blank gives no chunk. *)
Theorem pdf_process_chunks fuel read_pages cfg file_path pages :
  0 < CHUNK_SIZE cfg ->
  CHUNK_OVERLAP cfg < CHUNK_SIZE cfg ->
  read_pages file_path = Ok pages ->
  Forall (fun text =>
            (window_count (len text) (CHUNK_SIZE cfg - CHUNK_OVERLAP cfg)
             <= fuel)%nat) pages ->
  exists chunks,
    PDFProcessor.process fuel read_pages cfg file_path = Some (Ok chunks)
    /\ chunks
       = PDFProcessor.chunks_of_pages cfg
           (<[str_of "num_pages" := VInt (len pages)]>
              (extract_metadata file_path)) pages 1
    /\ Forall (fun chunk =>
                 exists p i,
                   page_number chunk = Some p /\ 1 <= p <= len pages
                   /\ chunk_index chunk = Some i /\ 0 <= i
                   /\ content chunk <> []
                   /\ len (content chunk) <= CHUNK_SIZE cfg
                   /\ metadata chunk !! str_of "page_number" = Some (VInt p)
                   /\ metadata chunk !! str_of "num_pages"
                      = Some (VInt (len pages))
                   /\ metadata chunk !! str_of "filename"
                      = Some (VStr (name file_path)))
         chunks
    /\ NoDup ((fun chunk => (page_number chunk, chunk_index chunk))
                <$> chunks)
    /\ (Forall (fun text => strip text = []) pages -> chunks = []).
Proof.
  intros Hcs Hov Hread Hfuel. unfold PDFProcessor.process.
  rewrite Hread, page_chunks_spec by done.
  eexists. split; [done|]. split; [done|].
  assert (Helem := chunks_of_pages_elem cfg
                     (<[str_of "num_pages" := VInt (len pages)]>
                        (extract_metadata file_path)) pages 1).
  split; [|split; [apply chunks_of_pages_NoDup|]].
  - apply Forall_forall. intros chunk Hchunk.
    apply Helem in Hchunk as (k & i & text & piece & Hk & Hblank & Hi & ->).
    pose proof (lookup_lt_Some _ _ _ Hk) as Hlt.
    assert (Hstep : 0 < CHUNK_SIZE cfg - CHUNK_OVERLAP cfg) by lia.
    destruct (windows_of_spec text _ _ Hcs Hstep) as [Hall _].
    apply list_elem_of_lookup_2 in Hi.
    rewrite Forall_forall in Hall. destruct (Hall _ Hi) as [Hlen Hne].
    exists (1 + Z.of_nat k), (Z.of_nat i). unfold PDFProcessor.chunk_at.
    cbn [page_number chunk_index content metadata].
    split; [done|]. split; [unfold len, str in *; lia|]. split; [done|].
    split; [lia|]. split; [apply Hne; intros ->; by apply Hblank|].
    split; [done|]. split; [|split].
    + by rewrite lookup_insert_ne, lookup_insert_eq by (by vm_compute).
    + by rewrite !lookup_insert_ne, lookup_insert_eq by (by vm_compute).
    + rewrite !lookup_insert_ne by (by vm_compute).
      by rewrite extract_metadata_lookup.
  - intros Hblank.
    destruct (PDFProcessor.chunks_of_pages _ _ _ _) as [|chunk rest] eqn:Hchunks;
      [done|].
    destruct (Helem chunk) as (k & _ & text & _ & Hk & Hne & _);
      [by left|].
    rewrite Forall_forall in Hblank. destruct Hne.
    apply Hblank. by eapply list_elem_of_lookup_2.
Qed.

Lemma pdf_process_chunks_witness :
  exists chunks,
    PDFProcessor.process 3 Samples.read_scan Samples.small_config
      (Doubles.path_of "scan.pdf") = Some (Ok chunks)
    /\ (content <$> chunks) = [str_of "first pa"; str_of " page"; str_of "third"]
    /\ (page_number <$> chunks) = [Some 1; Some 1; Some 3]
    /\ (chunk_index <$> chunks) = [Some 0; Some 1; Some 0].
Proof.
  destruct (pdf_process_chunks 3 Samples.read_scan Samples.small_config
              (Doubles.path_of "scan.pdf") Samples.scan_pages)
    as (chunks & Hrun & -> & _);
    [by vm_compute|by vm_compute|reflexivity| |].
  - repeat constructor; vm_compute; lia.
  - exists (PDFProcessor.chunks_of_pages Samples.small_config
              (<[str_of "num_pages" := VInt (len Samples.scan_pages)]>
                 (extract_metadata (Doubles.path_of "scan.pdf")))
              Samples.scan_pages 1).
    split; [exact Hrun|]. by vm_compute.
Defined.

(** *** From the processors to the store *)




(** *** The registry *)

Import Processors.DocumentProcessorFactory.

(** X6: [get_processor] returns a processor exactly when it is the first
    registered one that accepts the path, and [None] exactly when every
    registered processor refuses it. *)
Theorem get_processor_first_match (processors : list DocumentProcessor)
    (file_path : Path) (processor : DocumentProcessor) :
  (get_processor processors file_path = Some processor
   <-> exists before after,
         processors = before ++ processor :: after
         /\ Forall (fun p => can_process p file_path = false) before
         /\ can_process processor file_path = true)
  /\ (get_processor processors file_path = None
      <-> Forall (fun p => can_process p file_path = false) processors).
Proof.
  split; split.
  - intros (Hcan & before & after & -> & Hbefore)%RegistryProofs.get_processor_some.
    by exists before, after.
  - intros (before & after & -> & Hbefore & Hcan).
    rewrite RegistryProofs.get_processor_skip by done. simpl. by rewrite Hcan.
  - induction processors as [|p rest IH]; simpl; [constructor|].
    destruct (can_process p file_path) eqn:Hp; [done|].
    intros Hrest. constructor; [done|by apply IH].
  - apply RegistryProofs.get_processor_none.
Qed.

(** X7: the factory registers the PDF processor before the DOCX one, each
    if its library is there. No path is accepted by both, so the order
    never decides: a path gets the PDF processor when its suffix in lower
    case is [.pdf], the DOCX processor when it is [.docx] or [.doc], and no
    processor otherwise. *)
Theorem registered_processors (lower : str -> str)
    (pdf_available docx_available : bool) (pdf docx : DocumentProcessor)
    (file_path : Path) :
  can_process pdf = Processors.PDFProcessor.can_process lower ->
  can_process docx = Processors.DOCXProcessor.can_process lower ->
  get_processor
    (DocumentProcessorFactory.__init__ pdf_available docx_available pdf docx)
    file_path
  = (if pdf_available && bool_decide (lower (suffix file_path) = str_of ".pdf")
     then Some pdf
     else if docx_available
             && bool_decide (lower (suffix file_path)
                             ∈ [str_of ".docx"; str_of ".doc"])
     then Some docx
     else None)
  /\ ¬ (can_process pdf file_path = true /\ can_process docx file_path = true).
Proof.
  intros Hpdf Hdocx. split.
  - unfold DocumentProcessorFactory.__init__.
    destruct pdf_available, docx_available; simpl; rewrite ?Hpdf, ?Hdocx;
      unfold Processors.PDFProcessor.can_process,
        Processors.DOCXProcessor.can_process;
      repeat case_bool_decide; done.
  - rewrite Hpdf, Hdocx.
    unfold Processors.PDFProcessor.can_process,
      Processors.DOCXProcessor.can_process.
    intros [Hp Hd]. apply bool_decide_eq_true in Hp, Hd.
    rewrite Hp in Hd.
    repeat (apply elem_of_cons in Hd as [Hd|Hd]; [by vm_compute in Hd|]).
    by apply elem_of_nil in Hd.
Qed.

Lemma registered_processors_witness :
  get_processor
    (DocumentProcessorFactory.__init__ true true Doubles.pdf_processor
       Doubles.docx_processor)
    (Doubles.path_of "Report.DOCX")
  = Some Doubles.docx_processor
  /\ get_processor
       (DocumentProcessorFactory.__init__ true true Doubles.pdf_processor
          Doubles.docx_processor)
       (Doubles.path_of "notes.txt")
     = None.
Proof.
  split.
  - destruct (registered_processors Doubles.lower_ascii true true
                Doubles.pdf_processor Doubles.docx_processor
                (Doubles.path_of "Report.DOCX")) as [Hget _];
      [reflexivity|reflexivity|].
    rewrite Hget. by vm_compute.
  - destruct (registered_processors Doubles.lower_ascii true true
                Doubles.pdf_processor Doubles.docx_processor
                (Doubles.path_of "notes.txt")) as [Hget _];
      [reflexivity|reflexivity|].
    rewrite Hget. by vm_compute.
Defined.

End ExtractionProofs.

(* ===================================================================== *)
(** ** More on the knowledge store *)
(* ===================================================================== *)

Module StoreProofs.

Import Processors Storage StorageProofs.

(** *** Listing and statistics *)

(** [<=] on strings is total. *)
Global Instance str_leb_total : Total (fun a b : str => Is_true (str_leb a b)).
Proof.
  intros a. unfold str_leb. induction a as [|x a IH]; intros [|y b]; simpl;
    try (by left); try (by right).
  destruct (N.leb_spec x y), (N.leb_spec y x); simpl; try (by left);
    try (by right); [apply IH|lia].
Qed.

Global Instance VStr_inj : Inj (=) (=) VStr.
Proof. by intros ?? [= ->]. Qed.

(** When [sorted] gives strings, they are in order. *)
Lemma sorted_strings l names :
  sorted l = Ok (VStr <$> names) ->
  Sorted (fun a b : str => Is_true (str_leb a b)) names.
Proof.
  unfold sorted. destruct l as [|v [|w l]].
  - intros [= Hnames]. symmetry in Hnames. apply fmap_nil_inv in Hnames.
    subst. constructor.
  - intros [= Hnames]. destruct names as [|a [|b names]]; try done.
    repeat constructor.
  - destruct (mapM as_str _) as [ss|] eqn:Hs.
    { intros [= Hnames]. apply (inj (fmap VStr)) in Hnames as <-.
      apply Sorted_merge_sort, _. }
    destruct (mapM as_int _) as [zs|] eqn:Hz.
    { intros [= Hnames]. apply mapM_as_int in Hz.
      pose proof (merge_sort_Permutation Z.le zs) as Hperm.
      apply Permutation_length in Hperm.
      destruct zs as [|z zs]; [done|].
      destruct (merge_sort Z.le (z :: zs)); [done|].
      by destruct names. }
    destruct (mapM as_list _) as [ls|] eqn:Hl; [|done].
    intros [= Hnames]. apply mapM_as_list in Hl.
    pose proof (merge_sort_Permutation
                  (fun a b => lex_leb str_leb a b) ls) as Hperm.
    apply Permutation_length in Hperm.
    destruct ls as [|x ls]; [done|].
    destruct (merge_sort _ (x :: ls)); [done|].
    by destruct names.
Qed.

(** What [get_all_documents] returns has no repeated entry. *)
Lemma get_all_documents_NoDup {Embedding} (st : KnowledgeStore Embedding)
    documents :
  get_all_documents st = Ok documents -> NoDup documents.
Proof.
  unfold get_all_documents.
  destruct (_ <$> collection_get None (collection st)) as [|md mds].
  - intros [= <-]. constructor.
  - destruct (collect_filenames _ _) as [F|]; [|done].
    intros Hsort%sorted_Permutation. rewrite Hsort. apply NoDup_elements.
Qed.

(** X8: when every stored [filename] is a string, [get_all_documents]
    returns the stored file names, each once, in increasing order: no name
    of a stored record is missing and no other name is listed. *)
Theorem list_documents_exact {Embedding} (st : KnowledgeStore Embedding) :
  (forall v, stored_filename st v -> is_Some (as_str v)) ->
  exists names,
    get_all_documents st = Ok (VStr <$> names)
    /\ NoDup names
    /\ Sorted (fun a b : str => Is_true (str_leb a b)) names
    /\ forall name, name ∈ names <-> stored_filename st (VStr name).
Proof.
  intros Hstr.
  destruct (get_all_documents st) as [documents|] eqn:Hrun.
  2:{ pose proof (get_all_documents_is_Ok st) as [_ Hok]. rewrite Hrun in Hok.
      destruct Hok. split; [|right; by left].
      intros v [? Hv]%Hstr. by destruct v. }
  pose proof (get_all_documents_elem st documents Hrun) as Helem.
  assert (is_Some (mapM as_str documents)) as [names Hnames].
  { apply mapM_is_Some, Forall_forall. intros v Hv. by apply Hstr, Helem. }
  apply mapM_as_str in Hnames. subst documents. exists names.
  split; [done|]. split; [|split].
  - eapply NoDup_fmap_1, get_all_documents_NoDup. exact Hrun.
  - unfold get_all_documents in Hrun.
    destruct (_ <$> collection_get None (collection st)) as [|md mds].
    + injection Hrun as Hnil. symmetry in Hnil. apply fmap_nil_inv in Hnil.
      subst. constructor.
    + destruct (collect_filenames _ _) as [F|]; [|done].
      by eapply sorted_strings.
  - intros name. rewrite <- Helem. split.
    + intros Hin. apply list_elem_of_fmap. by exists name.
    + by intros (name' & [= ->] & Hin)%list_elem_of_fmap.
Qed.

Lemma list_documents_exact_witness :
  exists names,
    get_all_documents Doubles.library = Ok (VStr <$> names)
    /\ NoDup names
    /\ Sorted (fun a b : str => Is_true (str_leb a b)) names
    /\ forall name, name ∈ names <-> stored_filename Doubles.library (VStr name).
Proof.
  apply (list_documents_exact Doubles.library).
  intros v Hv.
  apply (get_all_documents_elem Doubles.library
           [VStr (str_of "a.pdf"); VStr (str_of "b.docx")]) in Hv;
    [|by vm_compute].
  apply elem_of_cons in Hv as [->|Hv]; [by eexists|].
  apply list_elem_of_singleton in Hv as ->. by eexists.
Defined.

(** X9: the statistics agree with one another: [total_chunks] is the
    number of records, [total_documents] the length of [documents], and
    there are never more documents than chunks; an empty collection has
    no document. *)
Theorem get_stats_consistent {Embedding} (st : KnowledgeStore Embedding)
    total_chunks total_documents documents :
  get_stats st = Ok (total_chunks, total_documents, documents) ->
  total_chunks = Z.of_nat (size (collection st))
  /\ total_documents = len documents
  /\ total_documents <= total_chunks
  /\ get_all_documents st = Ok documents
  /\ (total_chunks = 0 -> documents = []).
Proof.
  unfold get_stats, collection_count.
  destruct (get_all_documents st) as [docs|] eqn:Hrun; [|done].
  intros [= <- <- <-].
  pose proof (get_all_documents_elem st docs Hrun) as Helem.
  pose proof (get_all_documents_NoDup st docs Hrun) as Hnd.
  assert (Hle : (length docs <= size (collection st))%nat).
  { rewrite <- length_map_to_list.
    transitivity (length (omap (fun kv : str * StoredRecord Embedding =>
                                  r_metadata kv.2 !! FILENAME)
                            (map_to_list (collection st)))).
    - apply submseteq_length, NoDup_submseteq; [done|].
      intros v (id & record & Hlook & Hv)%Helem.
      apply list_elem_of_omap. exists (id, record).
      split; [by apply elem_of_map_to_list|done].
    - generalize (map_to_list (collection st)). intros l.
      induction l as [|kv l IH]; csimpl; [done|].
      destruct (r_metadata kv.2 !! FILENAME); csimpl; lia. }
  unfold len. repeat split; try done; [lia|].
  intros Hzero. destruct docs; [done|]. simpl in Hle. lia.
Qed.

Lemma get_stats_consistent_witness :
  (2 : Z) = len [VStr (str_of "a.pdf"); VStr (str_of "b.docx")]
  /\ 2 <= 3.
Proof.
  destruct (get_stats_consistent Doubles.library 3 2
              [VStr (str_of "a.pdf"); VStr (str_of "b.docx")])
    as (_ & Hdocs & Hle & _); [by vm_compute|].
  by split.
Defined.

(** *** Adding and deleting *)

Section AddDelete.

Context {Embedding : Type}.
Variable embed_documents : list str -> list Embedding.
Variable uuid4 : nat -> str.
Variable validate_metadata : gmap str pyval -> bool.

Implicit Types (st : KnowledgeStore Embedding).

Lemma zip_records_elem (ids documents : list str)
    (embeddings : list Embedding) (metadatas : list (gmap str pyval))
    id record :
  (id, record) ∈ zip_records ids documents embeddings metadatas ->
  id ∈ ids /\ r_metadata record ∈ metadatas.
Proof.
  revert documents embeddings metadatas.
  induction ids as [|i ids IH];
    intros [|d documents] [|e embeddings] [|m metadatas]; simpl;
    try (by intros ?%elem_of_nil).
  intros [[= -> ->]|Hin]%elem_of_cons.
  - split; by left.
  - apply IH in Hin as [? ?]. split; by right.
Qed.

Lemma zip_records_length (ids documents : list str)
    (embeddings : list Embedding) (metadatas : list (gmap str pyval)) :
  length documents = length ids -> length embeddings = length ids ->
  length metadatas = length ids ->
  length (zip_records ids documents embeddings metadatas) = length ids.
Proof.
  intros. rewrite <- (zip_records_fst ids documents embeddings metadatas)
    at 2 by done. by rewrite length_fmap.
Qed.

(** What a successful [add_document_chunks] does to the store. *)
Lemma add_document_chunks_collection st chunks ids st' :
  add_document_chunks embed_documents uuid4 validate_metadata st chunks
  = Ok (ids, st') ->
  exists added : gmap str (StoredRecord Embedding),
    collection st' = collection st ∪ added
    /\ ids = uuid4 <$> seq (drawn st) (length chunks)
    /\ NoDup ids
    /\ dom added = list_to_set ids
    /\ size added = length chunks
    /\ drawn st' = (drawn st + length chunks)%nat
    /\ forall id record,
         added !! id = Some record ->
         exists chunk,
           chunk ∈ chunks /\ r_metadata record = prepare_metadata chunk.
Proof.
  destruct (decide (chunks = [])) as [->|Hne].
  { intros [= <- <-]. exists ∅. rewrite map_union_empty.
    split; [done|]. split; [done|]. split; [constructor|].
    split; [by rewrite dom_empty_L|]. split; [apply map_size_empty|].
    split; [simpl; lia|]. by intros id record ?%lookup_empty_Some. }
  rewrite add_document_chunks_unfold by done. unfold collection_add.
  set (ids0 := uuid4 <$> seq (drawn st) (length chunks)).
  set (embs := embed_documents (content <$> chunks)).
  case_bool_decide as Hlen; cbn [negb]; [|done].
  case_bool_decide as Hnd; cbn [negb]; [|done].
  destruct (forallb _ _); cbn [negb]; [|done].
  intros [= <- <-]. destruct Hlen as (Hdocs & Hembs & Hmds).
  assert (Hids : length ids0 = length chunks).
  { unfold ids0. by rewrite length_fmap, length_seq. }
  eexists. split; [done|]. split; [done|]. split; [done|].
  split; [|split; [|split; [done|]]].
  - rewrite dom_list_to_map_L. by rewrite zip_records_fst.
  - rewrite map_size_list_to_map by (by rewrite zip_records_fst).
    by rewrite zip_records_length.
  - intros id record Hlook%elem_of_list_to_map_2.
    apply zip_records_elem in Hlook as [_ Hmd].
    apply list_elem_of_fmap in Hmd as (chunk & -> & Hchunk). by exists chunk.
Qed.

(** X10: a successful [add_document_chunks] keeps every record that was
    stored, returns one identifier per chunk, in order, and, the
    identifiers being new to the collection, adds as many records as there
    are chunks. *)
Theorem add_document_chunks_extends st chunks ids st' :
  add_document_chunks embed_documents uuid4 validate_metadata st chunks
  = Ok (ids, st') ->
  collection st ⊆ collection st'
  /\ length ids = length chunks
  /\ NoDup ids
  /\ ((forall id, id ∈ ids -> collection st !! id = None) ->
      size (collection st') = (size (collection st) + length chunks)%nat).
Proof.
  intros (added & -> & -> & Hnd & Hdom & Hsize & _ & _)%add_document_chunks_collection.
  split; [apply map_union_subseteq_l|]. split.
  { by rewrite length_fmap, length_seq. }
  split; [done|]. intros Hfresh.
  rewrite map_size_disj_union, Hsize; [done|].
  apply map_disjoint_dom. rewrite Hdom. intros id Hold Hnew.
  apply elem_of_list_to_set in Hnew. apply elem_of_dom in Hold as [? Hold].
  by rewrite (Hfresh id Hnew) in Hold.
Qed.

(** Deleting a file whose chunks were just added undoes the addition. *)
Lemma add_delete_restores st chunks ids st' (filename : str) :
  add_document_chunks embed_documents uuid4 validate_metadata st chunks
  = Ok (ids, st') ->
  (forall id, id ∈ ids -> collection st !! id = None) ->
  Forall (fun chunk => metadata chunk !! FILENAME = Some (VStr filename))
    chunks ->
  (forall id record,
     collection st !! id = Some record -> ¬ of_document filename record) ->
  delete_document st' filename
  = (len chunks, {| collection := collection st; drawn := drawn st' |}).
Proof.
  intros Hadd Hfresh Hfile Hold.
  apply add_document_chunks_collection in Hadd
    as (added & Hcoll & -> & Hnd & Hdom & Hsize & _ & Hadded).
  assert (Hdisj : collection st ##ₘ added).
  { apply map_disjoint_dom. rewrite Hdom. intros id Hin Hnew.
    apply elem_of_list_to_set in Hnew. apply elem_of_dom in Hin as [? Hin].
    by rewrite (Hfresh id Hnew) in Hin. }
  assert (Hnew : forall id record,
            added !! id = Some record -> of_document filename record).
  { intros id record (chunk & Hchunk & Hmd)%Hadded.
    unfold of_document. rewrite Hmd, prepare_metadata_lookup.
    unfold stored_value. rewrite decide_True by (by left).
    rewrite Forall_forall in Hfile. by rewrite (Hfile chunk Hchunk). }
  rewrite delete_document_spec, Hcoll, !map_filter_union by done.
  rewrite (map_filter_id _ added) by (intros id record ?; by eapply Hnew).
  assert (filter (fun kv => of_document filename kv.2) (collection st) = ∅)
    as ->.
  { apply map_empty_filter. intros id record Hlook. by eapply Hold. }
  rewrite (map_filter_id _ (collection st))
    by (intros id record ?; by eapply Hold).
  assert (filter (fun kv => ¬ of_document filename kv.2) added = ∅) as ->.
  { apply map_empty_filter. intros id record Hlook Hnot.
    apply Hnot. by eapply Hnew. }
  rewrite map_empty_union, map_union_empty, Hsize. done.
Qed.

(** X11: adding the chunks of one file and then deleting that file gives
    back the collection as it was, and the count deleted is the number of
    chunks added: provided the identifiers are new and no record of that
    file was stored before. *)
Theorem add_then_delete st chunks ids st' (filename : str) :
  add_document_chunks embed_documents uuid4 validate_metadata st chunks
  = Ok (ids, st') ->
  (forall id, id ∈ ids -> collection st !! id = None) ->
  Forall (fun chunk => metadata chunk !! FILENAME = Some (VStr filename))
    chunks ->
  (forall id record,
     collection st !! id = Some record -> ¬ of_document filename record) ->
  delete_document st' filename
  = (len chunks, {| collection := collection st; drawn := drawn st' |}).
Proof. apply add_delete_restores. Qed.

End AddDelete.

Lemma add_document_chunks_extends_witness :
  length [Doubles.uuid_seq 1; Doubles.uuid_seq 2] = length Samples.pdf_chunks
  /\ size (collection Samples.both_files)
     = (size (collection Samples.docx_only) + length Samples.pdf_chunks)%nat.
Proof.
  destruct (add_document_chunks_extends Doubles.embed_unit Doubles.uuid_seq
              Doubles.scalars_only Samples.docx_only Samples.pdf_chunks
              [Doubles.uuid_seq 1; Doubles.uuid_seq 2] Samples.both_files)
    as (_ & Hlen & _ & Hsize); [by vm_compute|].
  split; [exact Hlen|]. apply Hsize.
  intros id [->|[->|[]%elem_of_nil]%elem_of_cons]%elem_of_cons;
      vm_compute; reflexivity.
Defined.

Lemma add_then_delete_witness :
  delete_document Samples.both_files (str_of "a.pdf")
  = (len Samples.pdf_chunks,
     {| collection := collection Samples.docx_only;
        drawn := drawn Samples.both_files |}).
Proof.
  apply (add_then_delete Doubles.embed_unit Doubles.uuid_seq
           Doubles.scalars_only Samples.docx_only Samples.pdf_chunks
           [Doubles.uuid_seq 1; Doubles.uuid_seq 2]).
  - by vm_compute.
  - intros id [->|[->|[]%elem_of_nil]%elem_of_cons]%elem_of_cons;
      vm_compute; reflexivity.
  - repeat constructor.
  - apply (bool_decide_unpack
             (map_Forall (fun _ record => ¬ of_document (str_of "a.pdf") record)
                (collection Samples.docx_only))).
    by vm_compute.
Defined.

(** X12: deleting a file removes its name, and only its name, from what is
    stored; a second deletion of the same file removes nothing; and the
    records of every other file are still there to be deleted, as many as
    before. *)
Theorem delete_document_others {Embedding} (st : KnowledgeStore Embedding)
    (filename : str) :
  let st' := snd (delete_document st filename) in
  (forall v, stored_filename st' v
             <-> stored_filename st v /\ v <> VStr filename)
  /\ delete_document st' filename = (0, st')
  /\ forall other,
       other <> filename ->
       fst (delete_document st' other) = fst (delete_document st other).
Proof.
  intros st'. unfold st'. clear st'. rewrite delete_document_spec.
  cbn [snd]. split; [|split].
  - intros v. unfold stored_filename. cbn [collection]. split.
    + intros (id & record & [Hlook Hnot]%map_lookup_filter_Some & Hv).
      split; [by exists id, record|]. intros ->. by apply Hnot.
    + intros [(id & record & Hlook & Hv) Hne]. exists id, record.
      split; [|done]. apply map_lookup_filter_Some. split; [done|].
      cbn. unfold of_document. rewrite Hv. by intros [= ->].
  - rewrite delete_document_spec. cbn [collection drawn].
    assert (filter (fun kv : str * StoredRecord Embedding =>
                      of_document filename kv.2)
              (filter (fun kv => ¬ of_document filename kv.2) (collection st))
            = ∅) as ->.
    { apply map_empty_filter.
      by intros id record [_ Hnot]%map_lookup_filter_Some. }
    rewrite map_size_empty. f_equal. f_equal.
    apply map_filter_id.
    by intros id record [_ Hnot]%map_lookup_filter_Some.
  - intros other Hother. rewrite !delete_document_spec. cbn [fst collection].
    do 2 f_equal. apply map_eq. intros id. apply option_eq. intros record.
    rewrite !map_lookup_filter_Some. cbn.
    split; [by intros [[Hlook _] Hdoc]|].
    intros [Hlook Hdoc]. repeat split; try done.
    unfold of_document in *. rewrite Hdoc. by intros [= ->].
Qed.

End StoreProofs.

(* ===================================================================== *)
(** ** The prompts and the parsers of the question-answering layer *)
(* ===================================================================== *)

Module AnsweringProofs.

Import Storage QA Retrieval PyFacts.

(** *** Pieces of a text *)

Lemma occurs_in_refl (s : str) : occurs_in s s.
Proof. exists [], []. by rewrite app_nil_r. Qed.

Lemma occurs_in_trans (a b c : str) :
  occurs_in a b -> occurs_in b c -> occurs_in a c.
Proof.
  intros (b1 & b2 & ->) (c1 & c2 & ->).
  exists (c1 ++ b1), (b2 ++ c2). by rewrite <- !app_assoc.
Qed.

Lemma occurs_in_app_l (a b c : str) : occurs_in a b -> occurs_in a (b ++ c).
Proof.
  intros (b1 & b2 & ->). exists b1, (b2 ++ c). by rewrite <- !app_assoc.
Qed.

Lemma occurs_in_app_r (a b c : str) : occurs_in a c -> occurs_in a (b ++ c).
Proof.
  intros (c1 & c2 & ->). exists (b ++ c1), c2. by rewrite <- !app_assoc.
Qed.

Lemma join_cons_ne sep (x : str) (rest : list str) :
  rest <> [] -> join sep (x :: rest) = x ++ sep ++ join sep rest.
Proof. by destruct rest. Qed.

(** Every part occurs in the joined text. *)
Lemma occurs_in_join sep (x : str) (parts : list str) :
  x ∈ parts -> occurs_in x (join sep parts).
Proof.
  induction parts as [|p parts IH]; [by intros ?%elem_of_nil|].
  destruct (decide (parts = [])) as [->|Hne].
  { intros [->|?%elem_of_nil]%elem_of_cons; [|done]. apply occurs_in_refl. }
  rewrite join_cons_ne by done.
  intros [->|Hin]%elem_of_cons.
  - apply occurs_in_app_l, occurs_in_refl.
  - by apply occurs_in_app_r, occurs_in_app_r, IH.
Qed.

(** The content of every result occurs in the context. *)
Lemma occurs_in_context {Distance} opening closing
    (results : list (SearchResult Distance)) result :
  result ∈ results ->
  occurs_in (sr_content result) (context_of opening closing results).
Proof.
  intros (i & Hi)%list_elem_of_lookup_1. unfold context_of.
  eapply occurs_in_trans; [|apply occurs_in_join].
  2:{ apply list_elem_of_lookup_2 with i. rewrite list_lookup_imap, Hi.
      done. }
  unfold numbered.
  do 3 apply occurs_in_app_r. apply occurs_in_refl.
Qed.

(** *** answer_question *)

(** The loop of [answer_question] numbers the contents and collects one
    source per result. *)
Lemma context_loop {Distance} (results : list (SearchResult Distance))
    (f : nat -> nat) context_parts sources :
  foldl context_step (context_parts, sources)
    (imap (fun idx result => (f idx, result)) results)
  = (context_parts
     ++ imap (fun idx result =>
                numbered (str_of "[Document ") (f idx) (str_of "]: ")
                  (sr_content result))
          results,
     sources ++ (source_info <$> results)).
Proof.
  revert f context_parts sources.
  induction results as [|r rs IH]; intros f context_parts sources.
  - by rewrite !app_nil_r.
  - rewrite !imap_cons, fmap_cons. cbn [foldl].
    destruct (context_step (context_parts, sources) (f 0%nat, r))
      as [context_parts' sources'] eqn:Hstep.
    etrans; [exact (IH (f ∘ S) context_parts' sources')|].
    unfold context_step in Hstep. injection Hstep as <- <-.
    by rewrite <- !app_assoc.
Qed.

Lemma answer_question_results {Distance}
    (search : str -> Z -> option (gmap str pyval) -> list (SearchResult Distance))
    (llm : str -> str) (question : str) (n_results : Z) (log : list str) :
  search question n_results None <> [] ->
  answer_question search llm question n_results log
  = ({| answer :=
          llm (system_prompt
                 (context_of (str_of "[Document ") (str_of "]: ")
                    (search question n_results None))
                 question);
        sources := source_info <$> search question n_results None;
        context_used :=
          (fun r => excerpt (sr_content r))
            <$> search question n_results None |},
     log ++ [system_prompt
               (context_of (str_of "[Document ") (str_of "]: ")
                  (search question n_results None))
               question]).
Proof.
  intros Hresults. unfold answer_question, context_of.
  destruct (search question n_results None) as [|r rs] eqn:Heq; [done|].
  change (imap pair (r :: rs))
    with (imap (fun idx result => (id idx, result)) (r :: rs)).
  by rewrite context_loop.
Qed.

(** X13: when the search returns results, [answer_question] sends one
    prompt, the system prompt filled with the numbered contents and the
    question, and returns the response to it with one source per result, in
    the order of the results, each read from the result's metadata
    ([Unknown] for a missing file name, [None] for a missing page number or
    chunk index), and one excerpt per result. *)
Theorem answer_question_with_results {Distance}
    (search : str -> Z -> option (gmap str pyval) -> list (SearchResult Distance))
    (llm : str -> str) (question : str) (n_results : Z) (log : list str) :
  search question n_results None <> [] ->
  let results := search question n_results None in
  let prompt :=
    system_prompt (context_of (str_of "[Document ") (str_of "]: ") results)
      question in
  answer_question search llm question n_results log
  = ({| answer := llm prompt;
        sources := source_info <$> results;
        context_used := (fun r => excerpt (sr_content r)) <$> results |},
     log ++ [prompt]).
Proof.
  intros Hresults results prompt. by apply answer_question_results.
Qed.

Lemma answer_question_with_results_witness :
  run (answer_question
         (Doubles.search_fixed
            [Doubles.hit (str_of "alpha") "a.pdf";
             {| sr_content := str_of "beta"; sr_metadata := ∅;
                sr_distance := None |}])
         (Doubles.llm_fixed (str_of "ok")) (str_of "q") 5)
  = ({| answer := str_of "ok";
        sources :=
          [source_info (Doubles.hit (str_of "alpha") "a.pdf");
           {| source_filename := VStr (str_of "Unknown");
              source_page_number := VNone;
              source_chunk_index := VNone |}];
        context_used := [str_of "alpha"; str_of "beta"] |},
     [system_prompt
        (str_of "[Document 1]: alpha

[Document 2]: beta")
        (str_of "q")]).
Proof.
  unfold run.
  rewrite (answer_question_with_results
             (Doubles.search_fixed
                [Doubles.hit (str_of "alpha") "a.pdf";
                 {| sr_content := str_of "beta"; sr_metadata := ∅;
                    sr_distance := None |}])
             (Doubles.llm_fixed (str_of "ok")) (str_of "q") 5 [])
    by done.
  by vm_compute.
Defined.

(** X14: each of the three operations sends nothing to the model when its
    search returns nothing, and otherwise adds exactly one prompt to the
    log, in which the content of every retrieved result occurs, whole.
    [extract_insights] asks for [max_insights] results and
    [generate_tests] for five, of the named document only when a name that
    is not empty is given. *)
Theorem operations_send_results {Distance}
    (search : str -> Z -> option (gmap str pyval) -> list (SearchResult Distance))
    (llm : str -> str) (isdigit : char -> bool) (question : str)
    (n_results : Z) (document_name : option str) (max_insights : Z)
    (test_type : str) (log : list str) :
  sends_results (search question n_results None) log
    (snd (answer_question search llm question n_results log))
  /\ sends_results
       (search (str_of "key points important information insights")
          max_insights (document_filter document_name))
       log
       (snd (extract_insights search llm isdigit document_name max_insights
               log))
  /\ sends_results
       (search (test_type ++ str_of " requirements specifications test cases")
          5 (document_filter document_name))
       log
       (snd (generate_tests search llm document_name test_type log)).
Proof.
  split; [|split].
  - destruct (search question n_results None) as [|r rs] eqn:Heq.
    + unfold answer_question. by rewrite Heq.
    + rewrite answer_question_results by (by rewrite Heq).
      rewrite Heq. cbn [snd sends_results]. eexists. split; [done|].
      apply Forall_forall. intros result Hin.
      unfold system_prompt. apply occurs_in_app_r, occurs_in_app_l.
      by apply occurs_in_context.
  - unfold extract_insights, document_filter.
    destruct (truthy document_name);
      (match goal with
       | |- sends_results ?s _ _ => destruct s as [|r rs] eqn:Heq
       end; [done|]);
      cbn [snd sends_results bind invoke ret]; (eexists; split; [done|]);
      apply Forall_forall; intros result Hin;
      unfold insights_prompt; apply occurs_in_app_r, occurs_in_app_l;
      by apply (occurs_in_context (str_of "Excerpt ") (str_of ": ")).
  - unfold generate_tests, document_filter.
    destruct (truthy document_name);
      (match goal with
       | |- sends_results ?s _ _ => destruct s as [|r rs] eqn:Heq
       end; [done|]);
      cbn [snd sends_results bind invoke ret]; (eexists; split; [done|]);
      apply Forall_forall; intros result Hin;
      unfold tests_prompt; do 3 apply occurs_in_app_r; apply occurs_in_app_l;
      by apply (occurs_in_context (str_of "Section ") (str_of ": ")).
Qed.

(** *** Trimming *)

Lemma drop_while_parts {A} (p : A -> bool) (s : list A) :
  exists w, s = w ++ drop_while p s /\ Forall (fun c => p c = true) w.
Proof.
  induction s as [|x s (w & Hs & Hw)]; [by exists []|]. simpl.
  destruct (p x) eqn:Hx; [|by exists []].
  exists (x :: w). split; [by rewrite Hs at 1|by constructor].
Qed.

Lemma drop_while_head {A} (p : A -> bool) (s : list A) x rest :
  drop_while p s = x :: rest -> p x = false.
Proof.
  induction s as [|y s IH]; simpl; [done|].
  destruct (p y) eqn:Hy; [done|]. by intros [= <- _].
Qed.

Lemma drop_while_idemp {A} (p : A -> bool) (s : list A) :
  drop_while p (drop_while p s) = drop_while p s.
Proof.
  destruct (drop_while p s) as [|x rest] eqn:Heq; [done|].
  apply drop_while_head in Heq. simpl. by rewrite Heq.
Qed.

(** [rstrip] removes a run of white space at the end. *)
Lemma rstrip_parts (s : str) :
  exists w, s = rstrip s ++ w /\ Forall (fun c => isspace c = true) w.
Proof.
  unfold rstrip.
  destruct (drop_while_parts isspace (reverse s)) as (w & Hs & Hw).
  exists (reverse w). split; [|by apply Forall_reverse].
  rewrite <- reverse_app.
  transitivity (reverse (reverse s)); [by rewrite reverse_involutive|].
  by f_equal.
Qed.

Lemma lstrip_rstrip_lstrip (s : str) :
  lstrip (rstrip (lstrip s)) = rstrip (lstrip s).
Proof.
  destruct (lstrip s) as [|c t] eqn:Heq; [done|].
  unfold lstrip in Heq. apply drop_while_head in Heq.
  destruct (rstrip_parts (c :: t)) as (w & Hs & Hw).
  destruct (rstrip (c :: t)) as [|c' t'] eqn:Hr.
  - simpl in Hs. subst w. apply Forall_cons in Hw as [Hc _]. congruence.
  - injection Hs as <- _. unfold lstrip. simpl. by rewrite Heq.
Qed.

(** A trimmed text is trimmed already. *)
Lemma strip_idemp (s : str) : strip (strip s) = strip s.
Proof.
  unfold strip. rewrite lstrip_rstrip_lstrip.
  unfold rstrip. by rewrite reverse_involutive, drop_while_idemp.
Qed.

Lemma strip_occurs (s : str) : occurs_in (strip s) s.
Proof.
  unfold strip.
  destruct (drop_while_parts isspace s) as (w & Hs & _).
  destruct (rstrip_parts (lstrip s)) as (w' & Hs' & _).
  exists w, w'. rewrite <- Hs'. exact Hs.
Qed.

Lemma lstrip_chars_occurs chars (s : str) : occurs_in (lstrip_chars chars s) s.
Proof.
  unfold lstrip_chars.
  destruct (drop_while_parts (fun c => bool_decide (c ∈ chars)) s)
    as (w & Hs & _).
  exists w, []. by rewrite app_nil_r.
Qed.

Lemma Forall_slice {A} (P : A -> Prop) (s : list A) (a b : Z) :
  Forall P s -> Forall P (slice s a b).
Proof. intros Hs. unfold slice. by apply Forall_take, Forall_drop. Qed.

(** X15: every insight that is returned is not empty, has no white space
    at either end, and is a piece of one line of the response: the parser
    only cuts, it adds and reorders nothing within an insight. *)
Theorem insights_are_trimmed_pieces (isdigit : char -> bool) (text : str)
    (max_insights : Z) :
  Forall (fun insight =>
            insight <> []
            /\ strip insight = insight
            /\ exists line,
                 line ∈ split NEWLINE text /\ occurs_in insight line)
    (parse_insights isdigit text max_insights).
Proof.
  unfold parse_insights. rewrite QAProofs.insight_loop_spec. cbn [app].
  apply Forall_slice, Forall_forall. intros insight Hin.
  apply list_elem_of_omap in Hin as (line & Hline & Hinsight).
  unfold insight_of in Hinsight.
  destruct (marked isdigit (strip line)); [|done].
  destruct (strip (lstrip_chars MARKER_CHARS (strip line)))
    as [|c rest] eqn:Heq; [done|].
  injection Hinsight as <-. rewrite <- Heq.
  split; [by rewrite Heq|]. split; [apply strip_idemp|].
  exists line. split; [done|].
  eapply occurs_in_trans; [apply strip_occurs|].
  eapply occurs_in_trans; [apply lstrip_chars_occurs|apply strip_occurs].
Qed.

(** *** The records of generate_tests *)

Lemma join_snoc sep (parts : list str) (last : str) :
  parts <> [] -> join sep (parts ++ [last]) = join sep parts ++ sep ++ last.
Proof.
  induction parts as [|p parts IH]; [done|]. intros _.
  destruct (decide (parts = [])) as [->|Hne]; [done|].
  rewrite <- app_comm_cons, !join_cons_ne, IH, <- !app_assoc; try done.
  by destruct parts.
Qed.

Lemma join_last_app sep (parts : list str) (last more : str) :
  join sep (parts ++ [last ++ more]) = join sep (parts ++ [last]) ++ more.
Proof.
  induction parts as [|p parts IH]; [done|].
  rewrite <- !app_comm_cons, !join_cons_ne, IH, <- !app_assoc; try done;
    by destruct parts.
Qed.

Lemma join_lines (line : str) (lines : list str) :
  join [NEWLINE] (line :: lines)
  = line ++ mjoin ((fun l => NEWLINE :: l) <$> lines).
Proof.
  revert line. induction lines as [|l lines IH]; intros line.
  - simpl. by rewrite app_nil_r.
  - rewrite join_cons_ne, IH by done. done.
Qed.

(** The lines from a marker line on: each one extends the text of the
    current record or opens the next one, and nothing is dropped. *)
Lemma test_loop_active lines test_cases full :
  exists test_cases' full',
    foldl test_step (test_cases, {[FULL_TEXT := full]}) lines
    = (test_cases', {[FULL_TEXT := full']})
    /\ join [NEWLINE] ((full_text <$> test_cases') ++ [full'])
       = join [NEWLINE] ((full_text <$> test_cases) ++ [full])
         ++ mjoin ((fun l => NEWLINE :: strip l) <$> lines)
    /\ length test_cases'
       = (length test_cases
          + length (filter (fun l => has_marker (strip l) = true) lines))%nat
    /\ (Forall (fun record => dom record = ({[FULL_TEXT]} : gset str))
          test_cases ->
        Forall (fun record => dom record = ({[FULL_TEXT]} : gset str))
          test_cases').
Proof.
  revert test_cases full.
  induction lines as [|line lines IH]; intros test_cases full.
  { exists test_cases, full. simpl. by rewrite app_nil_r, Nat.add_0_r. }
  cbn [foldl]. unfold test_step at 2. fold (has_marker (strip line)).
  rewrite bool_decide_true by apply map_non_empty_singleton.
  destruct (has_marker (strip line)) eqn:Hmark.
  - destruct (IH (test_cases ++ [{[FULL_TEXT := full]}]) (strip line))
      as (test_cases' & full' & -> & Hjoin & Hlen & Hdom).
    exists test_cases', full'. split; [done|]. split; [|split].
    3:{ intros Hold. apply Hdom, Forall_app. split; [done|].
        constructor; [apply dom_singleton_L|constructor]. }
    + rewrite Hjoin, fmap_app. cbn [fmap list_fmap mjoin].
      unfold full_text at 2. rewrite lookup_singleton_eq. cbn [default id].
      rewrite join_snoc by (by destruct (full_text <$> test_cases)).
      by rewrite <- !app_assoc.
    + rewrite Hlen, length_app, filter_cons_True by done. simpl. lia.
  - rewrite lookup_singleton_eq, insert_singleton_eq. cbn [default id].
    destruct (IH test_cases (full ++ [NEWLINE] ++ strip line))
      as (test_cases' & full' & Heq & Hjoin & Hlen & Hdom).
    exists test_cases', full'. split; [exact Heq|]. split; [|split; [|done]].
    + rewrite Hjoin, join_last_app. cbn [fmap list_fmap mjoin].
      by rewrite <- !app_assoc.
    + rewrite Hlen, filter_cons_False by (by rewrite Hmark). done.
Qed.

Lemma filter_drop_while {A} (p : A -> bool) (s : list A) :
  filter (fun x => p x = true) s
  = filter (fun x => p x = true) (drop_while (fun x => negb (p x)) s).
Proof.
  induction s as [|x s IH]; simpl; [done|].
  destruct (p x) eqn:Hx; simpl; [done|].
  by rewrite filter_cons_False by (by rewrite Hx).
Qed.

(** The records of the lines from a marker line on. *)
Lemma parse_test_lines_marker first rest :
  has_marker (strip first) = true ->
  exists test_cases full,
    parse_test_lines (first :: rest) = test_cases ++ [{[FULL_TEXT := full]}]
    /\ join [NEWLINE] ((full_text <$> test_cases) ++ [full])
       = join [NEWLINE] (strip <$> first :: rest)
    /\ S (length test_cases)
       = length (filter (fun l => has_marker (strip l) = true) (first :: rest))
    /\ Forall (fun record => dom record = ({[FULL_TEXT]} : gset str))
         test_cases.
Proof.
  intros Hfirst. unfold parse_test_lines. cbn [foldl].
  unfold test_step at 2. fold (has_marker (strip first)).
  rewrite Hfirst, bool_decide_false by (by intros []).
  destruct (test_loop_active rest [] (strip first))
    as (test_cases & full & -> & Hjoin & Hlen & Hdom).
  rewrite bool_decide_true by apply map_non_empty_singleton.
  exists test_cases, full. split; [done|]. split; [|split].
  - rewrite Hjoin, fmap_cons, join_lines, <- list_fmap_compose. done.
  - rewrite filter_cons_True by done. simpl in *. lia.
  - apply Hdom. constructor.
Qed.

Lemma parse_test_lines_nil : parse_test_lines [] = [].
Proof.
  unfold parse_test_lines. cbn [foldl].
  by rewrite bool_decide_false by (by intros []).
Qed.

(** X16: [parse_test_cases] makes one record per line that holds
    [Test ID] or [Test Case]; every record has the one key [full_text];
    and the texts of the records, joined by newlines, are the trimmed lines
    of the response from the first such line on, joined by newlines: no
    line after it is lost, none is repeated. *)
Theorem test_cases_keep_every_line (text : str) :
  let lines := split NEWLINE text in
  let holds_marker := fun line => has_marker (strip line) in
  length (parse_test_cases text)
  = length (filter (fun line => holds_marker line = true) lines)
  /\ Forall (fun record => dom record = ({[FULL_TEXT]} : gset str))
       (parse_test_cases text)
  /\ join [NEWLINE] (full_text <$> parse_test_cases text)
     = join [NEWLINE]
         (strip <$> drop_while (fun line => negb (holds_marker line)) lines).
Proof.
  intros lines holds_marker.
  assert (Hparse : parse_test_cases text
                   = parse_test_lines
                       (drop_while (fun line => negb (holds_marker line))
                          lines)).
  { unfold parse_test_cases, parse_test_lines.
    by rewrite QAProofs.test_loop_skip. }
  rewrite Hparse, (filter_drop_while holds_marker lines).
  destruct (drop_while (fun line => negb (holds_marker line)) lines)
    as [|first rest] eqn:Hdrop.
  { rewrite parse_test_lines_nil. by repeat split. }
  apply drop_while_head in Hdrop as Hfirst. apply negb_false_iff in Hfirst.
  destruct (parse_test_lines_marker first rest Hfirst)
    as (test_cases & full & -> & Hjoin & Hlen & Hdom).
  split; [|split].
  - rewrite length_app. simpl. unfold holds_marker. lia.
  - apply Forall_app. split; [done|].
    constructor; [apply dom_singleton_L|constructor].
  - rewrite fmap_app. cbn [fmap list_fmap]. unfold full_text at 2.
    by rewrite lookup_singleton_eq.
Qed.

End AnsweringProofs.

(* ===================================================================== *)
(** ** Adding and deleting documents through the knowledge base *)
(* ===================================================================== *)

Module ManagerProofs.

Import Processors Storage Manager.

Section KnowledgeBase.

Context {Embedding FS OSError : Type}.
Variable embed_documents : list str -> list Embedding.
Variable uuid4 : nat -> str.
Variable validate_metadata : gmap str pyval -> bool.
Variable exists_ : FS -> Path -> bool.
Variable copy2 : FS -> Path -> Path -> FS + OSError.
Variable unlink : FS -> Path -> FS + OSError.
Variable processors : FS -> list DocumentProcessor.
Variable documents_path : str -> Path.

Local Abbreviation add_document :=
  (Manager.add_document embed_documents uuid4 validate_metadata exists_
     copy2 processors documents_path).
Local Abbreviation delete_document :=
  (Manager.delete_document (Embedding:=Embedding) exists_ unlink
     documents_path).
Local Abbreviation process_document kb file_path :=
  (DocumentProcessorFactory.process_document (exists_ (files kb))
     (processors (files kb)) file_path).
Local Abbreviation add_chunks :=
  (add_document_chunks embed_documents uuid4 validate_metadata).

(** The ways [add_document] can end. *)
Lemma add_document_cases kb file_path :
  (exists e,
     process_document kb file_path = Err e
     /\ fst (add_document kb file_path) = Raises e
     /\ knowledge_store (snd (add_document kb file_path)) = knowledge_store kb
     /\ files (snd (add_document kb file_path)) = files kb)
  \/ (exists chunks e,
        process_document kb file_path = Ok chunks
        /\ add_chunks (knowledge_store kb) chunks = Err e
        /\ fst (add_document kb file_path) = Raises e
        /\ knowledge_store (snd (add_document kb file_path))
           = knowledge_store kb
        /\ files (snd (add_document kb file_path)) = files kb)
  \/ (exists chunks ids store e,
        process_document kb file_path = Ok chunks
        /\ add_chunks (knowledge_store kb) chunks = Ok (ids, store)
        /\ copy2 (files kb) file_path (documents_path (name file_path))
           = inr e
        /\ fst (add_document kb file_path) = RaisesOS e
        /\ knowledge_store (snd (add_document kb file_path)) = store
        /\ files (snd (add_document kb file_path)) = files kb)
  \/ (exists chunks ids store fs,
        process_document kb file_path = Ok chunks
        /\ add_chunks (knowledge_store kb) chunks = Ok (ids, store)
        /\ copy2 (files kb) file_path (documents_path (name file_path))
           = inl fs
        /\ fst (add_document kb file_path)
           = Returns {| added_filename := name file_path;
                        chunks_added := len ids;
                        stored_path :=
                          path_str (documents_path (name file_path)) |}
        /\ knowledge_store (snd (add_document kb file_path)) = store
        /\ files (snd (add_document kb file_path)) = fs).
Proof.
  unfold Manager.add_document, print. cbn [files knowledge_store console].
  destruct (process_document kb file_path) as [chunks|e] eqn:Hp;
    [|left; by exists e].
  destruct (add_chunks (knowledge_store kb) chunks) as [[ids store]|e] eqn:Ha;
    rewrite ?Ha; [|right; left; by exists chunks, e].
  destruct (copy2 _ _ _) as [fs|e] eqn:Hc.
  - do 3 right. by exists chunks, ids, store, fs.
  - right; right; left. by exists chunks, ids, store, e.
Qed.


(** X18: a call of [add_document] that returns has found the file,
    reports the file's name and, as [chunks_added], the number of chunks
    the processor made of it; no stored record is lost, and when the
    identifiers drawn are new to the collection, the collection has grown
    by [chunks_added] records. *)
Theorem add_document_returns kb file_path res kb' :
  add_document kb file_path = (Returns res, kb') ->
  exists chunks,
    exists_ (files kb) file_path = true
    /\ process_document kb file_path = Ok chunks
    /\ added_filename res = name file_path
    /\ chunks_added res = len chunks
    /\ stored_path res = path_str (documents_path (name file_path))
    /\ copy2 (files kb) file_path (documents_path (name file_path))
       = inl (files kb')
    /\ collection (knowledge_store kb) ⊆ collection (knowledge_store kb')
    /\ ((forall n,
           (drawn (knowledge_store kb) <= n)%nat ->
           collection (knowledge_store kb) !! uuid4 n = None) ->
        size (collection (knowledge_store kb'))
        = (size (collection (knowledge_store kb)) + length chunks)%nat).
Proof.
  intros Hadd.
  destruct (add_document_cases kb file_path)
    as [(e & Hp & Hr & Hst & Hfs)
       |[(chunks & e & Hp & Ha & Hr & Hst & Hfs)
        |[(chunks & ids & store & e & Hp & Ha & Hc & Hr & Hst & Hfs)
         |(chunks & ids & store & fs & Hp & Ha & Hc & Hr & Hst & Hfs)]]];
    rewrite Hadd in Hr, Hst, Hfs; cbn [fst snd] in Hr, Hst, Hfs;
    try discriminate Hr.
  injection Hr as ->. subst store fs.
  destruct (StoreProofs.add_document_chunks_collection embed_documents
              uuid4 validate_metadata _ _ _ _ Ha)
    as (added & Hcoll & Hids & _ & Hdom & Hsize & _).
  exists chunks. cbn [added_filename chunks_added stored_path].
  split.
  { unfold DocumentProcessorFactory.process_document in Hp.
    by destruct (exists_ (files kb) file_path). }
  split; [done|]. split; [done|]. split.
  { unfold len. by rewrite Hids, length_fmap, length_seq. }
  split; [done|]. split; [done|].
  split; [rewrite Hcoll; apply map_union_subseteq_l|].
  intros Hfresh. rewrite Hcoll, map_size_disj_union, Hsize; [done|].
  apply map_disjoint_dom. rewrite Hdom. intros id Hold Hnew.
  apply elem_of_list_to_set in Hnew. rewrite Hids in Hnew.
  apply list_elem_of_fmap in Hnew as (n & -> & Hn%elem_of_seq).
  apply elem_of_dom in Hold as [? Hold].
  by rewrite Hfresh in Hold by lia.
Qed.

(** X19: a document that was added and is then deleted by its name leaves
    the collection as it was before the addition, and [chunks_deleted] is
    the [chunks_added] of the addition: provided the identifiers drawn were
    new, no record of that name was stored before, the processor puts the
    file's name into the metadata of its chunks, and the copy is there and
    can be removed. *)
Theorem add_then_delete_document kb file_path res kb1 fs2 :
  add_document kb file_path = (Returns res, kb1) ->
  (forall n,
     (drawn (knowledge_store kb) <= n)%nat ->
     collection (knowledge_store kb) !! uuid4 n = None) ->
  (forall id record,
     collection (knowledge_store kb) !! id = Some record ->
     ¬ of_document (name file_path) record) ->
  (forall chunks,
     process_document kb file_path = Ok chunks ->
     Forall (fun chunk =>
               metadata chunk !! FILENAME = Some (VStr (name file_path)))
       chunks) ->
  exists_ (files kb1) (documents_path (name file_path)) = true ->
  unlink (files kb1) (documents_path (name file_path)) = inl fs2 ->
  delete_document kb1 (name file_path)
  = (Returns {| deleted_filename := name file_path;
                chunks_deleted := chunks_added res;
                file_deleted := true |},
     {| knowledge_store :=
          {| collection := collection (knowledge_store kb);
             drawn := drawn (knowledge_store kb1) |};
        files := fs2;
        console := console kb1 |}).
Proof.
  intros Hadd Hfresh Hold Hnames Hexists Hunlink.
  destruct (add_document_cases kb file_path)
    as [(e & Hp & Hr & Hst & Hfs)
       |[(chunks & e & Hp & Ha & Hr & Hst & Hfs)
        |[(chunks & ids & store & e & Hp & Ha & Hc & Hr & Hst & Hfs)
         |(chunks & ids & store & fs & Hp & Ha & Hc & Hr & Hst & Hfs)]]];
    rewrite Hadd in Hr, Hst, Hfs; cbn [fst snd] in Hr, Hst, Hfs;
    try discriminate Hr.
  injection Hr as ->. subst store fs. cbn [chunks_added].
  destruct (StoreProofs.add_document_chunks_collection embed_documents
              uuid4 validate_metadata _ _ _ _ Ha)
    as (added & _ & Hids & _).
  unfold Manager.delete_document.
  rewrite (StoreProofs.add_delete_restores embed_documents uuid4
             validate_metadata (knowledge_store kb) chunks ids
             (knowledge_store kb1) (name file_path) Ha).
  - cbn [files knowledge_store console]. rewrite Hexists, Hunlink.
    do 3 f_equal. unfold len. by rewrite Hids, length_fmap, length_seq.
  - intros id Hid. rewrite Hids in Hid.
    apply list_elem_of_fmap in Hid as (n & -> & Hn%elem_of_seq).
    apply Hfresh. lia.
  - by apply Hnames.
  - done.
Qed.

(** X20: [delete_document] of a name whose file is not in the documents
    directory never raises: it returns [file_deleted] [False] and the
    number of records of that name, which it has removed, and none for a
    name that is not stored. When the file is there and cannot be removed,
    the call raises after the records have been removed: they stay
    removed. *)
Theorem delete_document_report kb (filename : str) :
  let removed :=
    {| collection :=
         filter (fun kv => ¬ of_document filename kv.2)
           (collection (knowledge_store kb));
       drawn := drawn (knowledge_store kb) |} in
  let count :=
    Z.of_nat (size (filter (fun kv => of_document filename kv.2)
                      (collection (knowledge_store kb)))) in
  (exists_ (files kb) (documents_path filename) = false ->
   delete_document kb filename
   = (Returns {| deleted_filename := filename;
                 chunks_deleted := count;
                 file_deleted := false |},
      {| knowledge_store := removed; files := files kb;
         console := console kb |}))
  /\ (forall e,
        exists_ (files kb) (documents_path filename) = true ->
        unlink (files kb) (documents_path filename) = inr e ->
        delete_document kb filename
        = (RaisesOS e,
           {| knowledge_store := removed; files := files kb;
              console := console kb |}))
  /\ ((forall id record,
         collection (knowledge_store kb) !! id = Some record ->
         ¬ of_document filename record) ->
      count = 0 /\ collection removed = collection (knowledge_store kb)).
Proof.
  intros removed count. unfold Manager.delete_document.
  rewrite StorageProofs.delete_document_spec.
  cbn [files knowledge_store console]. fold removed count.
  split; [by intros ->|]. split; [by intros e -> ->|].
  intros Hnone. unfold count, removed. cbn [collection]. split.
  - assert (filter (fun kv => of_document filename kv.2)
              (collection (knowledge_store kb)) = ∅) as ->.
    { apply map_empty_filter. intros id record Hlook. by eapply Hnone. }
    by rewrite map_size_empty.
  - apply map_filter_id. intros id record Hlook. by eapply Hnone.
Qed.


End KnowledgeBase.


Lemma add_document_returns_witness :
  Disk.add_document Disk.fresh (Disk.inbox "a.pdf")
  = (Returns Disk.report, Disk.added)
  /\ size (collection (knowledge_store Disk.added)) = 1%nat.
Proof.
  assert (Hadd : Disk.add_document Disk.fresh (Disk.inbox "a.pdf")
                 = (Returns Disk.report, Disk.added)).
  { vm_compute. reflexivity. }
  split; [exact Hadd|].
  destruct (add_document_returns Doubles.embed_unit Doubles.uuid_seq
              Doubles.scalars_only Disk.exists_ Disk.copy2 Disk.processors
              Disk.documents_path Disk.fresh (Disk.inbox "a.pdf")
              Disk.report Disk.added Hadd)
    as (chunks & _ & Hp & _ & _ & _ & _ & _ & Hsize).
  injection Hp as <-. apply Hsize. intros n _. apply lookup_empty.
Defined.

Lemma add_then_delete_document_witness :
  Disk.delete_document Disk.added (str_of "a.pdf")
  = (Returns {| deleted_filename := str_of "a.pdf";
                chunks_deleted := 1; file_deleted := true |},
     {| knowledge_store :=
          {| collection := ∅; drawn := drawn (knowledge_store Disk.added) |};
        files := files Disk.fresh;
        console := console Disk.added |}).
Proof.
  assert (Hadd : Disk.add_document Disk.fresh (Disk.inbox "a.pdf")
                 = (Returns Disk.report, Disk.added)).
  { vm_compute. reflexivity. }
  apply (add_then_delete_document Doubles.embed_unit Doubles.uuid_seq
           Doubles.scalars_only Disk.exists_ Disk.copy2 Disk.unlink
           Disk.processors Disk.documents_path Disk.fresh
           (Disk.inbox "a.pdf") Disk.report Disk.added (files Disk.fresh)
           Hadd).
  - intros n _. apply lookup_empty.
  - intros id record Hlook.
    change ((∅ : gmap str (StoredRecord ())) !! id = Some record) in Hlook.
    rewrite lookup_empty in Hlook. discriminate Hlook.
  - intros chunks [= <-]. constructor; [|constructor].
    vm_compute. reflexivity.
  - vm_compute. reflexivity.
  - vm_compute. reflexivity.
Defined.


Lemma delete_document_report_witness :
  fst (Disk.delete_document Disk.fresh (str_of "b.docx"))
  = Returns {| deleted_filename := str_of "b.docx";
               chunks_deleted := 0;
               file_deleted := false |}.
Proof.
  destruct (delete_document_report (OSError:=str) Disk.exists_ Disk.unlink
              Disk.documents_path Disk.fresh (str_of "b.docx"))
    as (Habsent & _ & Hnone).
  unfold Disk.delete_document. rewrite Habsent by (vm_compute; reflexivity).
  cbn [fst]. destruct Hnone as [-> _]; [|reflexivity].
  intros id record Hlook.
  change ((∅ : gmap str (StoredRecord ())) !! id = Some record) in Hlook.
  rewrite lookup_empty in Hlook. discriminate Hlook.
Defined.

End ManagerProofs.
